(** * Migración políglota PostgreSQL -> Neo4j

    Shallow embedding of [migracion_poliglota.py]: the mapping model read
    from [mapeo_migracion.json], the row-to-record conversions, the Cypher
    text generators, and the orchestrator [MigradorPoliglota] with its two
    modes, followed by the properties established about them. *)

From Stdlib Require Import Ascii String.
From stdpp Require Import gmap strings list fin_maps.

Open Scope string_scope.
Open Scope list_scope.

(** ** Data model *)

(** A scalar delivered by the relational driver in one column of one row. *)
Inductive valor : Type :=
| VNull
| VInt (z : Z)
| VStr (s : string)
| VBool (b : bool).

#[global] Instance valor_eq_dec : EqDecision valor.
Proof. solve_decision. Defined.

(** One row of [cursor.fetchall()]: a positional tuple. *)
Abbreviation tupla := (list valor).

(** The keyword arguments of one [run] call: a Python [dict] from
    parameter names to values. *)
Abbreviation parametros := (gmap string valor).

(** A JSON object whose values are strings, in file order
    ([mapeo_campos]): [claves] is [list(d.keys())], [valores] is
    [list(d.values())] and [dict_get] is [d[k]]. *)
Abbreviation dict := (list (string * string)).

Definition claves (d : dict) : list string := map fst d.
Definition valores (d : dict) : list string := map snd d.

Fixpoint dict_get (d : dict) (k : string) : option string :=
  match d with
  | [] => None
  | (k', v) :: d' => if decide (k' = k) then Some v else dict_get d' k
  end.

(** An element of [MAPEO_MIGRACION['entidades']]. *)
Record entidad : Type := Entidad {
  e_nombre : string;
  etiqueta_neo4j : string;
  e_consulta_sql : string;
  mapeo_campos : dict
}.

(** An element of [MAPEO_MIGRACION['relaciones']]. *)
Record relacion : Type := Relacion {
  r_nombre : string;
  tipo_relacion : string;
  r_consulta_sql : string;
  nodo_origen : string;
  nodo_destino : string
}.

(** [MAPEO_MIGRACION['opciones']]; every key is read with
    [.get(clave, False)], so an absent key and [false] coincide. *)
Record opciones_t : Type := Opciones {
  limpiar_neo4j_antes : bool;
  crear_indices : bool;
  modo_debug : bool
}.

Definition sin_opciones : opciones_t := Opciones false false false.

(** The object loaded from [mapeo_migracion.json]. Each top-level key may
    be absent; [otras_claves] lists the keys the program never reads,
    which only count for the truth value of the object. *)
Record mapeo_migracion : Type := Mapeo {
  opciones : option opciones_t;
  entidades : option (list entidad);
  relaciones : option (list relacion);
  otras_claves : list string
}.

(** Python's [bool(d)] on a [dict]: true exactly when it has a key. *)
Definition verdadero (m : mapeo_migracion) : bool :=
  bool_decide (is_Some (opciones m)) || bool_decide (is_Some (entidades m))
  || bool_decide (is_Some (relaciones m))
  || negb (bool_decide (otras_claves m = [])).

(** ** Exceptions and results *)

Inductive excepcion : Type :=
| IndexError
| KeyError (clave : string)
| StopIteration
| ErrorPostgres
| ErrorNeo4j.

Inductive resultado (A : Type) : Type :=
| Ok (a : A)
| Error (e : excepcion).
Arguments Ok {A} a.
Arguments Error {A} e.

(** [l[i]] on a list or tuple, for [i >= 0]. *)
Definition indice {A : Type} (l : list A) (i : nat) : resultado A :=
  match l !! i with
  | Some x => Ok x
  | None => Error IndexError
  end.

(** ** Row-to-record conversion *)

(** Lines 202-205: the inner loop
    [for i, campo_sql in enumerate(campos_sql)] filling [registro]. *)
Fixpoint llenar_registro (mapeo : dict) (fila : tupla) (i : nat)
    (campos_sql : list string) (registro : parametros) : resultado parametros :=
  match campos_sql with
  | [] => Ok registro
  | campo_sql :: resto =>
      match dict_get mapeo campo_sql with
      | None => Error (KeyError campo_sql)
      | Some campo_neo4j =>
          match indice fila i with
          | Error e => Error e
          | Ok v =>
              llenar_registro mapeo fila (S i) resto
                (<[campo_neo4j := v]> registro)
          end
      end
  end.

(** One iteration of [for fila in datos] (lines 201-206). *)
Definition convertir_fila (mapeo : dict) (fila : tupla)
    : resultado parametros :=
  llenar_registro mapeo fila 0 (claves mapeo) ∅.

(** One element of the comprehension of lines 250-256. *)
Definition convertir_fila_relacion (fila : tupla) : resultado parametros :=
  match indice fila 0 with
  | Error e => Error e
  | Ok o =>
      match indice fila 1 with
      | Error e => Error e
      | Ok d => Ok (<["id_destino" := d]> (<["id_origen" := o]> ∅))
      end
  end.

(** A list built row by row; the first failing row raises. *)
Fixpoint convertir_todas {A B : Type} (f : A -> resultado B) (l : list A)
    : resultado (list B) :=
  match l with
  | [] => Ok []
  | x :: l' =>
      match f x with
      | Error e => Error e
      | Ok y =>
          match convertir_todas f l' with
          | Error e => Error e
          | Ok ys => Ok (y :: ys)
          end
      end
  end.

(** ** Cypher text *)

Definition nl : string := String "010"%char "".

Fixpoint espacios (n : nat) : string :=
  match n with
  | O => ""
  | S n' => String " "%char (espacios n')
  end.

(** [sep.join(l)]. *)
Fixpoint join (sep : string) (l : list string) : string :=
  match l with
  | [] => ""
  | [x] => x
  | x :: l' => x +:+ sep +:+ join sep l'
  end.

(** The statement of [limpiar_neo4j] and of line 175. *)
Definition consulta_limpiar : string := "MATCH (n) DETACH DELETE n".

(** Line 213: one [SET] item. *)
Definition campo_set (campo : string) : string :=
  "n." +:+ campo +:+ " = $" +:+ campo.

(** Lines 215-218: the f-string, given the label, the identity field and
    the [SET] items. *)
Definition texto_consulta_nodos (etiqueta id_campo : string)
    (campos_set : list string) : string :=
  nl +:+ espacios 20 +:+ "MERGE (n:" +:+ etiqueta +:+ " {" +:+ id_campo
     +:+ ": $" +:+ id_campo +:+ "})" +:+ nl
     +:+ espacios 20 +:+ "SET " +:+ join ", " campos_set +:+ nl
     +:+ espacios 16.

(** Lines 209-218: [campos_neo4j[0]] raises on an empty field map. *)
Definition consulta_nodos (entidad : entidad) : resultado string :=
  let mapeo := mapeo_campos entidad in
  let campos_neo4j := valores mapeo in
  match indice campos_neo4j 0 with
  | Error e => Error e
  | Ok id_campo =>
      let campos_set := map campo_set campos_neo4j in
      Ok (texto_consulta_nodos (etiqueta_neo4j entidad) id_campo campos_set)
  end.

(** [next(e for e in entidades if e['etiqueta_neo4j'] == etiqueta)]. *)
Fixpoint next_entidad (entidades : list entidad) (etiqueta : string)
    : resultado entidad :=
  match entidades with
  | [] => Error StopIteration
  | e :: resto =>
      if decide (etiqueta_neo4j e = etiqueta) then Ok e
      else next_entidad resto etiqueta
  end.

(** Lines 268-272. *)
Definition texto_consulta_relaciones
    (nodo_origen campo_id_origen nodo_destino campo_id_destino tipo : string)
    : string :=
  nl +:+ espacios 20 +:+ "MATCH (origen:" +:+ nodo_origen +:+ " {"
     +:+ campo_id_origen +:+ ": $id_origen})" +:+ nl
     +:+ espacios 20 +:+ "MATCH (destino:" +:+ nodo_destino +:+ " {"
     +:+ campo_id_destino +:+ ": $id_destino})" +:+ nl
     +:+ espacios 20 +:+ "MERGE (origen)-[:" +:+ tipo +:+ "]->(destino)" +:+ nl
     +:+ espacios 16.

(** Lines 260-272: both endpoint lookups, then both identity fields. *)
Definition consulta_relaciones (entidades : list entidad) (relacion : relacion)
    : resultado string :=
  match next_entidad entidades (nodo_origen relacion) with
  | Error e => Error e
  | Ok nodo_origen_config =>
      match next_entidad entidades (nodo_destino relacion) with
      | Error e => Error e
      | Ok nodo_destino_config =>
          match indice (valores (mapeo_campos nodo_origen_config)) 0 with
          | Error e => Error e
          | Ok campo_id_origen =>
              match indice (valores (mapeo_campos nodo_destino_config)) 0 with
              | Error e => Error e
              | Ok campo_id_destino =>
                  Ok (texto_consulta_relaciones (nodo_origen relacion)
                        campo_id_origen (nodo_destino relacion)
                        campo_id_destino (tipo_relacion relacion))
              end
          end
      end
  end.

(** Line 293. *)
Definition consulta_indice (etiqueta id_campo : string) : string :=
  "CREATE INDEX IF NOT EXISTS FOR (n:" +:+ etiqueta +:+ ") ON (n."
     +:+ id_campo +:+ ")".

(** Lines 303 and 310. *)
Definition consulta_total_nodos (etiqueta : string) : string :=
  "MATCH (n:" +:+ etiqueta +:+ ") RETURN count(n) as total".
Definition consulta_total_relaciones (tipo : string) : string :=
  "MATCH ()-[r:" +:+ tipo +:+ "]->() RETURN count(r) as total".

(** The literals of [ejecutar_migracion_manual]. *)
Definition sql_usuarios : string :=
  "SELECT id_usuario as id, nombre, email FROM usuarios".
Definition sql_publicaciones : string :=
  "SELECT id_publicacion as id, texto_contenido as texto FROM publicaciones".
Definition sql_amistades : string :=
  "SELECT usuario_solicitante_id as id1, usuario_receptor_id as id2 " +:+ nl
     +:+ espacios 19 +:+ "FROM amistades WHERE estado = 'ACEPTADA'".
Definition sql_publicaciones_autor : string :=
  "SELECT autor_id as autor, id_publicacion as post FROM publicaciones".

Definition consulta_usuarios : string :=
  nl +:+ espacios 16 +:+ "MERGE (persona:Persona {id_sql: $id}) " +:+ nl
     +:+ espacios 16 +:+ "SET persona.nombre = $nombre, persona.email = $email"
     +:+ nl +:+ espacios 12.
Definition consulta_posts : string :=
  nl +:+ espacios 16 +:+ "MERGE (post:Post {id_sql: $id}) " +:+ nl
     +:+ espacios 16 +:+ "SET post.texto = $texto" +:+ nl +:+ espacios 12.
Definition consulta_amistad : string :=
  nl +:+ espacios 16 +:+ "MATCH (persona1:Persona {id_sql: $id1})" +:+ nl
     +:+ espacios 16 +:+ "MATCH (persona2:Persona {id_sql: $id2})" +:+ nl
     +:+ espacios 16 +:+ "MERGE (persona1)-[:AMIGO_DE]->(persona2)" +:+ nl
     +:+ espacios 12.
Definition consulta_publico : string :=
  nl +:+ espacios 16 +:+ "MATCH (persona:Persona {id_sql: $autor})" +:+ nl
     +:+ espacios 16 +:+ "MATCH (post:Post {id_sql: $post})" +:+ nl
     +:+ espacios 16 +:+ "MERGE (persona)-[:PUBLICO]->(post)" +:+ nl
     +:+ espacios 12.

(** ** Observable events *)

(** The lines written to the console, one constructor per [print]. *)
Inductive mensaje : Type :=
| MsgMapeoNoEncontrado
| MsgErrorConexion (error : excepcion)
| MsgLimpiadoCompleto
| MsgInicio
| MsgAutomatica
| MsgLimpiando
| MsgLimpiado
| MsgFase1
| MsgMigrando (nombre etiqueta : string)
| MsgSinDatos (nombre : string)
| MsgConsultaCypher (consulta : string)
| MsgNodosCreados (etiqueta : string) (registros : nat)
| MsgFase2
| MsgCreandoRelaciones (tipo : string)
| MsgSinRelaciones (nombre : string)
| MsgRelacionesCreadas (tipo : string) (registros : nat)
| MsgFase3
| MsgIndiceCreado (etiqueta id_campo : string)
| MsgErrorIndice (e : excepcion)
| MsgFase4
| MsgTotalNodos (etiqueta : string) (total : Z)
| MsgLineaVacia
| MsgTotalRelaciones (tipo : string) (total : Z)
| MsgAutomaticaCompletada
| MsgManual
| MsgFaseUsuarios
| MsgFasePublicaciones
| MsgFaseAmistades
| MsgFaseAutoria
| MsgManualCompletada
| MsgResultado (resultado : string)
| MsgErrorMigracion (error : excepcion)
| MsgConexionesCerradas.

(** The transaction function handed to [execute_write]. *)
Inductive funcion_tx : Type :=
| CrearNodos
| CrearRelaciones.

(** What the program does to the outside world, in program order. *)
Inductive evento : Type :=
| EvPrint (m : mensaje)
| EvConectarPostgres
| EvConectarNeo4j
| EvCerrarPostgres
| EvCerrarNeo4j
| EvSQL (consulta : string)
| EvRun (consulta : string) (params : parametros)
| EvExecuteWrite (f : funcion_tx) (consulta : string)
    (registros : list parametros) (etiqueta : string).

Abbreviation traza := (list evento).

(** ** The effect monad: a log of events and a result or an exception *)

Definition M (A : Type) : Type := traza * resultado A.

Definition ret {A : Type} (a : A) : M A := ([], Ok a).

Definition bind {A B : Type} (m : M A) (f : A -> M B) : M B :=
  match m with
  | (t, Error e) => (t, Error e)
  | (t, Ok a) => let '(t', r) := f a in (t ++ t', r)
  end.

Definition emitir (ev : evento) : M unit := ([ev], Ok tt).
Definition lanzar {A : Type} (e : excepcion) : M A := ([], Error e).
Definition elevar {A : Type} (r : resultado A) : M A := ([], r).

(** [try: m except Exception as e: h e]. *)
Definition intentar {A : Type} (m : M A) (h : excepcion -> M A) : M A :=
  match m with
  | (t, Ok a) => (t, Ok a)
  | (t, Error e) => let '(t', r) := h e in (t ++ t', r)
  end.

Declare Scope M_scope.
Delimit Scope M_scope with M.
Notation "x <- m ;; k" := (bind m (fun x => k))
  (at level 100, m at next level, right associativity) : M_scope.
Notation "m ;; k" := (bind m (fun _ => k))
  (at level 100, right associativity) : M_scope.
Open Scope M_scope.

(** [for x in l: f x]; an exception leaves the loop. *)
Fixpoint para_cada {A : Type} (f : A -> M unit) (l : list A) : M unit :=
  match l with
  | [] => ret tt
  | x :: l' => f x ;; para_cada f l'
  end.

(** [d[clave]] on a top-level key that may be absent. *)
Definition clave {A : Type} (nombre : string) (v : option A) : M A :=
  match v with
  | Some a => ret a
  | None => lanzar (KeyError nombre)
  end.

Definition imprimir (m : mensaje) : M unit := emitir (EvPrint m).
Definition cuando (b : bool) (m : M unit) : M unit := if b then m else ret tt.

(** ** The migrator *)

(** The two ways [ejecutar_migracion] can go. *)
Inductive modo : Type :=
| ModoAutomatico (m : mapeo_migracion)
| ModoManual.

Section Migrador.

(** The two stores, as seen from the program: what PostgreSQL answers to
    a query (rows, or an exception), whether Neo4j accepts a statement
    with its parameters, and the [total] column of a count query. The
    source is only read and the run is the only client of both stores,
    so each answer is taken to depend on the request alone. *)
Variable pg : string -> resultado (list tupla).
Variable neo4j_acepta : string -> parametros -> bool.
Variable neo4j_total : string -> Z.

(** Lines 100-112. *)
Definition obtener_datos_postgresql (consulta : string) : M (list tupla) :=
  emitir (EvSQL consulta) ;; elevar (pg consulta).

(** [sesion.run(consulta, **params)] and [transaccion.run(...)]. *)
Definition run (consulta : string) (params : parametros) : M unit :=
  emitir (EvRun consulta params) ;;
  if neo4j_acepta consulta params then ret tt else lanzar ErrorNeo4j.

(** Lines 114-127. *)
Definition crear_nodos_neo4j (consulta_cypher : string)
    (registros : list parametros) (etiqueta : string) : M unit :=
  para_cada (fun registro => run consulta_cypher registro) registros ;;
  imprimir (MsgNodosCreados etiqueta (length registros)).

(** Lines 129-142. *)
Definition crear_relaciones_neo4j (consulta_cypher : string)
    (registros : list parametros) (tipo_relacion : string) : M unit :=
  para_cada (fun registro => run consulta_cypher registro) registros ;;
  imprimir (MsgRelacionesCreadas tipo_relacion (length registros)).

(** [sesion.execute_write(f, consulta, registros, etiqueta)]: one write
    transaction around one call of [f]. *)
Definition execute_write (f : funcion_tx) (consulta : string)
    (registros : list parametros) (etiqueta : string) : M unit :=
  emitir (EvExecuteWrite f consulta registros etiqueta) ;;
  match f with
  | CrearNodos => crear_nodos_neo4j consulta registros etiqueta
  | CrearRelaciones => crear_relaciones_neo4j consulta registros etiqueta
  end.

(** Lines 184-229: the body of [for entidad in ...['entidades']]. *)
Definition migrar_entidad (opciones : opciones_t) (entidad : entidad)
    : M unit :=
  let nombre := e_nombre entidad in
  let etiqueta := etiqueta_neo4j entidad in
  imprimir (MsgMigrando nombre etiqueta) ;;
  datos <- obtener_datos_postgresql (e_consulta_sql entidad) ;;
  match datos with
  | [] => imprimir (MsgSinDatos nombre)
  | _ :: _ =>
      let mapeo := mapeo_campos entidad in
      datos_dict <- elevar (convertir_todas (convertir_fila mapeo) datos) ;;
      consulta <- elevar (consulta_nodos entidad) ;;
      cuando (modo_debug opciones) (imprimir (MsgConsultaCypher consulta)) ;;
      execute_write CrearNodos consulta datos_dict etiqueta
  end.

(** Lines 237-283: the body of [for relacion in ...['relaciones']]. *)
Definition migrar_relacion (opciones : opciones_t)
    (entidades : list entidad) (relacion : relacion) : M unit :=
  let nombre := r_nombre relacion in
  let tipo := tipo_relacion relacion in
  imprimir (MsgCreandoRelaciones tipo) ;;
  datos <- obtener_datos_postgresql (r_consulta_sql relacion) ;;
  match datos with
  | [] => imprimir (MsgSinRelaciones nombre)
  | _ :: _ =>
      datos_dict <- elevar (convertir_todas convertir_fila_relacion datos) ;;
      consulta <- elevar (consulta_relaciones entidades relacion) ;;
      cuando (modo_debug opciones) (imprimir (MsgConsultaCypher consulta)) ;;
      execute_write CrearRelaciones consulta datos_dict tipo
  end.

(** Lines 288-297: the body of the index loop. *)
Definition crear_indice (entidad : entidad) : M unit :=
  let etiqueta := etiqueta_neo4j entidad in
  id_campo <- elevar (indice (valores (mapeo_campos entidad)) 0) ;;
  intentar
    (run (consulta_indice etiqueta id_campo) ∅ ;;
     imprimir (MsgIndiceCreado etiqueta id_campo))
    (fun e => imprimir (MsgErrorIndice e)).

(** Lines 301-305 and 308-312: the bodies of the two count loops. *)
Definition contar_nodos (entidad : entidad) : M unit :=
  let etiqueta := etiqueta_neo4j entidad in
  let consulta := consulta_total_nodos etiqueta in
  run consulta ∅ ;;
  imprimir (MsgTotalNodos etiqueta (neo4j_total consulta)).

Definition contar_relaciones (relacion : relacion) : M unit :=
  let tipo := tipo_relacion relacion in
  let consulta := consulta_total_relaciones tipo in
  run consulta ∅ ;;
  imprimir (MsgTotalRelaciones tipo (neo4j_total consulta)).

(** Lines 166-181: up to the announcement of phase 1. *)
Definition preludio (opciones : opciones_t) : M unit :=
  imprimir MsgAutomatica ;;
  cuando (limpiar_neo4j_antes opciones)
    (imprimir MsgLimpiando ;;
     run consulta_limpiar ∅ ;;
     imprimir MsgLimpiado) ;;
  imprimir MsgFase1.

(** Lines 285-315: indexes, statistics and the returned message. *)
Definition epilogo (opciones : opciones_t) (entidades : list entidad)
    (relaciones : list relacion) : M string :=
  cuando (crear_indices opciones)
    (imprimir MsgFase3 ;; para_cada crear_indice entidades) ;;
  imprimir MsgFase4 ;;
  para_cada contar_nodos entidades ;;
  imprimir MsgLineaVacia ;;
  para_cada contar_relaciones relaciones ;;
  imprimir MsgAutomaticaCompletada ;;
  ret "Migración automática completada exitosamente".

(** Lines 161-315. *)
Definition ejecutar_migracion_automatica
    (MAPEO_MIGRACION : mapeo_migracion) : M string :=
  let opciones := default sin_opciones (opciones MAPEO_MIGRACION) in
  preludio opciones ;;
  entidades <- clave "entidades" (entidades MAPEO_MIGRACION) ;;
  para_cada (migrar_entidad opciones) entidades ;;
  imprimir MsgFase2 ;;
  relaciones <- clave "relaciones" (relaciones MAPEO_MIGRACION) ;;
  para_cada (migrar_relacion opciones entidades) relaciones ;;
  epilogo opciones entidades relaciones.

(** The four dictionary comprehensions of the manual mode. *)
Definition usuario_dict (usuario : tupla) : resultado parametros :=
  match indice usuario 0, indice usuario 1, indice usuario 2 with
  | Ok id, Ok nombre, Ok email =>
      Ok (<["email" := email]> (<["nombre" := nombre]> (<["id" := id]> ∅)))
  | _, _, _ => Error IndexError
  end.

Definition post_dict (post : tupla) : resultado parametros :=
  match indice post 0, indice post 1 with
  | Ok id, Ok texto => Ok (<["texto" := texto]> (<["id" := id]> ∅))
  | _, _ => Error IndexError
  end.

Definition amistad_dict (amistad : tupla) : resultado parametros :=
  match indice amistad 0, indice amistad 1 with
  | Ok id1, Ok id2 => Ok (<["id2" := id2]> (<["id1" := id1]> ∅))
  | _, _ => Error IndexError
  end.

Definition publicacion_autor_dict (pub : tupla) : resultado parametros :=
  match indice pub 0, indice pub 1 with
  | Ok autor, Ok post => Ok (<["post" := post]> (<["autor" := autor]> ∅))
  | _, _ => Error IndexError
  end.

(** Lines 317-454. *)
Definition ejecutar_migracion_manual : M string :=
  imprimir MsgManual ;;
  imprimir MsgFaseUsuarios ;;
  usuarios <- obtener_datos_postgresql sql_usuarios ;;
  usuarios_dict <- elevar (convertir_todas usuario_dict usuarios) ;;
  execute_write CrearNodos consulta_usuarios usuarios_dict "Persona" ;;
  imprimir MsgFasePublicaciones ;;
  publicaciones <- obtener_datos_postgresql sql_publicaciones ;;
  publicaciones_dict <- elevar (convertir_todas post_dict publicaciones) ;;
  execute_write CrearNodos consulta_posts publicaciones_dict "Post" ;;
  imprimir MsgFaseAmistades ;;
  amistades <- obtener_datos_postgresql sql_amistades ;;
  amistades_dict <- elevar (convertir_todas amistad_dict amistades) ;;
  execute_write CrearRelaciones consulta_amistad amistades_dict "AMIGO_DE" ;;
  imprimir MsgFaseAutoria ;;
  publicaciones_autor <- obtener_datos_postgresql sql_publicaciones_autor ;;
  publicaciones_autor_dict <-
    elevar (convertir_todas publicacion_autor_dict publicaciones_autor) ;;
  execute_write CrearRelaciones consulta_publico publicaciones_autor_dict
    "PUBLICO" ;;
  imprimir MsgManualCompletada ;;
  ret "Migración completada exitosamente".

(** Lines 144-159. [MAPEO_MIGRACION] is [None] when the file was not
    found (lines 44-50), and [if MAPEO_MIGRACION:] is Python truth:
    false on [None] and on an object without keys. *)
Definition seleccionar_modo (MAPEO_MIGRACION : option mapeo_migracion)
    : modo :=
  match MAPEO_MIGRACION with
  | None => ModoManual
  | Some m => if verdadero m then ModoAutomatico m else ModoManual
  end.

Definition ejecutar_modo (md : modo) : M string :=
  match md with
  | ModoAutomatico m => ejecutar_migracion_automatica m
  | ModoManual => ejecutar_migracion_manual
  end.

Definition ejecutar_migracion (MAPEO_MIGRACION : option mapeo_migracion)
    : M string :=
  imprimir MsgInicio ;;
  ejecutar_modo (seleccionar_modo MAPEO_MIGRACION).

(** ** The process *)

(** Whether each driver accepts the connection parameters. *)
Variable conecta_postgres : bool.
Variable conecta_neo4j : bool.

(** Lines 90-98. *)
Definition limpiar_neo4j : M unit :=
  run consulta_limpiar ∅ ;; imprimir MsgLimpiadoCompleto.

(** The body of the [try] of [__init__] (lines 73-84). *)
Definition conectar (borrar_al_iniciar : bool) : M unit :=
  emitir EvConectarPostgres ;;
  (if conecta_postgres then ret tt else lanzar ErrorPostgres) ;;
  emitir EvConectarNeo4j ;;
  (if conecta_neo4j then ret tt else lanzar ErrorNeo4j) ;;
  cuando borrar_al_iniciar limpiar_neo4j.

(** Lines 456-465. *)
Definition cerrar_conexiones : traza :=
  [EvCerrarPostgres; EvCerrarNeo4j; EvPrint MsgConexionesCerradas].

(** Lines 44-50: loading the mapping file at import time. *)
Definition cargar_mapeo (archivo : option mapeo_migracion) : traza :=
  match archivo with
  | Some _ => []
  | None => [EvPrint MsgMapeoNoEncontrado]
  end.

(** Lines 539-554, the console branch of [__main__], with the module
    initialisation before it: the events of the process and its exit
    status. [__init__] turns any exception into [sys.exit(1)]
    (lines 86-88), which [except Exception] does not catch and which
    leaves [migrador] unset for the [finally] block. *)
Definition principal (archivo : option mapeo_migracion)
    (borrar_al_iniciar : bool) : traza * Z :=
  let MAPEO_MIGRACION := archivo in
  match conectar borrar_al_iniciar with
  | (t0, Error error) =>
      (cargar_mapeo archivo ++ t0 ++ [EvPrint (MsgErrorConexion error)], 1%Z)
  | (t0, Ok _) =>
      match ejecutar_migracion MAPEO_MIGRACION with
      | (t1, Ok resultado) =>
          (cargar_mapeo archivo ++ t0 ++ t1
             ++ [EvPrint (MsgResultado resultado)] ++ cerrar_conexiones, 0%Z)
      | (t1, Error error) =>
          (cargar_mapeo archivo ++ t0 ++ t1
             ++ [EvPrint (MsgErrorMigracion error)] ++ cerrar_conexiones, 0%Z)
      end
  end.

End Migrador.

(** * Vocabulary of the properties *)

(** What the claim on field-mapping fidelity asks of the record [r]
    built from [fila] under [mapeo]: one property per entry, each entry's
    property holding the column at the entry's position, nothing else. *)
Definition fiel (mapeo : dict) (fila : tupla) (r : parametros) : Prop :=
  size r = length mapeo /\
  (forall i k p, mapeo !! i = Some (k, p) ->
     exists v, fila !! i = Some v /\ r !! p = Some v) /\
  (forall p v, r !! p = Some v ->
     exists i k, mapeo !! i = Some (k, p) /\ fila !! i = Some v).

(** The statement that section 4.3 of the design asks of the generator
    for an entity, in Cypher and in the layout of the program: merge a
    node of label [etiqueta] on the single property [id_campo], then set
    every property of [campos], each from the parameter of its own name.
    It is written out piece by piece, without the functions of the
    generator. *)
Definition sentencia_upsert (etiqueta id_campo : string)
    (campos : list string) : string :=
  String "010"
    ("                    MERGE (n:" +:+ etiqueta +:+ " {" +:+ id_campo
       +:+ ": $" +:+ id_campo +:+ "})"
       +:+ String "010"
             ("                    SET "
                +:+ String.concat ", "
                      (map (fun campo => "n." +:+ campo +:+ " = $" +:+ campo)
                         campos)
                +:+ String "010" "                ")).

Section Almacen.

(** The graph store, which the program only drives, taken as a
    parameter: its states, and what executing a statement with its
    parameters makes of a state, [None] when the store refuses. *)
Context {grafo : Type}.
Variable ejecutar : string -> parametros -> grafo -> option grafo.

(** The state of the store after the statements of a trace, executed in
    the order of the trace. *)
Fixpoint efecto (t : traza) (g : grafo) : option grafo :=
  match t with
  | [] => Some g
  | EvRun consulta params :: t' =>
      match ejecutar consulta params g with
      | Some g' => efecto t' g'
      | None => None
      end
  | _ :: t' => efecto t' g
  end.

(** Modelled from the spec: the graph store is not part of the
    repository, and this is what the glossary of the design says of an
    upsert (create if absent, otherwise match and update, keyed by the
    identity property), asked of the way the store executes one
    statement, [ejecutar_c]. [nodos] counts the nodes of a state and
    [hay g v] says that [g] holds a node of the label whose identity
    property has the value [v]. When the statement is executed, the
    parameter named [id_campo] has a value; afterwards a node with that
    identity exists; none was added if one existed before; and every
    identity that existed still does. *)
Definition es_upsert (nodos : grafo -> nat) (hay : grafo -> valor -> Prop)
    (id_campo : string) (ejecutar_c : parametros -> grafo -> option grafo)
    : Prop :=
  forall (p : parametros) (g g' : grafo),
    ejecutar_c p g = Some g' ->
    exists v, p !! id_campo = Some v /\ hay g' v
              /\ (hay g v -> nodos g' = nodos g)
              /\ forall w, hay g w -> hay g' w.

(** The store accepts or refuses a statement by its parameters, whatever
    its state: the assumption under which [neo4j_acepta] stands for the
    store in the migrator. *)
Definition acepta_por_parametros
    (ejecutar_c : parametros -> grafo -> option grafo) : Prop :=
  forall (p : parametros) (g1 g2 : grafo),
    is_Some (ejecutar_c p g1) -> is_Some (ejecutar_c p g2).

End Almacen.

(** An iteration of a loop body that ends without exception. *)
Definition termina_bien {A : Type} (f : A -> M unit) (x : A) : Prop :=
  (f x).2 = Ok tt.

(** The events of the body of a transaction function: one [run] of the
    batch statement per record, then at most the closing message. *)
Definition de_lote (c : string) (regs : list parametros) (ev : evento)
    : Prop :=
  (exists p, p ∈ regs /\ ev = EvRun c p) \/ (exists m, ev = EvPrint m).

(** The first two events of every entity and of every relationship, and
    the line printed in debug mode. *)
Definition cabecera_entidad (e : entidad) : traza :=
  [EvPrint (MsgMigrando (e_nombre e) (etiqueta_neo4j e));
   EvSQL (e_consulta_sql e)].

Definition cabecera_relacion (r : relacion) : traza :=
  [EvPrint (MsgCreandoRelaciones (tipo_relacion r));
   EvSQL (r_consulta_sql r)].

Definition aviso_debug (opc : opciones_t) (c : string) : traza :=
  if modo_debug opc then [EvPrint (MsgConsultaCypher c)] else [].

(** Events outside the two migration loops: console lines and single
    statements run on the session. *)
Definition fuera_de_lote (ev : evento) : Prop :=
  match ev with
  | EvPrint _ | EvRun _ _ => True
  | _ => False
  end.

(** Projections of a trace: the source queries issued, the write
    transactions opened, and the statements sent to the graph store. *)
Definition consultas_sql (t : traza) : list string :=
  omap (fun ev => match ev with EvSQL q => Some q | _ => None end) t.

Definition escrituras (t : traza) : list (funcion_tx * string) :=
  omap (fun ev => match ev with
                  | EvExecuteWrite f _ _ etiqueta => Some (f, etiqueta)
                  | _ => None
                  end) t.

Definition sentencias (t : traza) : list string :=
  omap (fun ev => match ev with
                  | EvRun c _ => Some c
                  | EvExecuteWrite _ c _ _ => Some c
                  | _ => None
                  end) t.

(** The invariants of the mapping model in the design (section 4.1):
    every field map non-empty, every relationship endpoint label declared
    by some entity. *)
Definition etiqueta_declarada (es : list entidad) (etiqueta : string) : bool :=
  existsb (fun e => bool_decide (etiqueta_neo4j e = etiqueta)) es.

Definition mapeo_valido (es : list entidad) (rs : list relacion) : bool :=
  forallb (fun e => negb (bool_decide (mapeo_campos e = []))) es
  && forallb (fun r => etiqueta_declarada es (nodo_origen r)
                       && etiqueta_declarada es (nodo_destino r)) rs.

(** Progress of a computation against an expected list of source queries
    and an expected list of write transactions: what it has done is a
    prefix of each list, and all of each list when it returns. *)
Definition avance {A : Type} (m : M A) (qs : list string)
    (ws : list (funcion_tx * string)) : Prop :=
  consultas_sql m.1 `prefix_of` qs /\
  escrituras m.1 `prefix_of` ws /\
  (forall a, m.2 = Ok a -> consultas_sql m.1 = qs /\ escrituras m.1 = ws).

(** * Concrete inputs *)

(** The scenario of the design document: a person table with three
    columns. *)
Definition mapeo_usuarios : dict :=
  [("id_usuario", "id"); ("nombre", "nombre"); ("email", "email")].
Definition fila_usuario : tupla := [VInt 1; VStr "A"; VStr "a@x"].

Definition entidad_usuarios : entidad :=
  Entidad "usuarios" "Persona" "SELECT id,name,email FROM users"
    mapeo_usuarios.

(** The record of that row. *)
Definition registro_usuario : parametros :=
  <["email" := VStr "a@x"]> (<["nombre" := VStr "A"]> (<["id" := VInt 1]> ∅)).

Definition relacion_amistad : relacion :=
  Relacion "amistades" "FRIEND_OF"
    "SELECT uid1,uid2 FROM friendships WHERE status='ACCEPTED'"
    "Persona" "Persona".

Definition mapeo_ejemplo : mapeo_migracion :=
  Mapeo (Some (Opciones true false false)) (Some [entidad_usuarios])
    (Some [relacion_amistad]) [].

(** Two users and one accepted friendship between them. *)
Definition pg_ejemplo (consulta : string) : resultado (list tupla) :=
  if decide (consulta = e_consulta_sql entidad_usuarios) then
    Ok [[VInt 1; VStr "A"; VStr "a@x"]; [VInt 2; VStr "B"; VStr "b@x"]]
  else if decide (consulta = r_consulta_sql relacion_amistad) then
    Ok [[VInt 1; VInt 2]]
  else Ok [].

(** A graph store that accepts every statement and counts nothing. *)
Definition neo4j_acepta_todo (consulta : string) (params : parametros)
    : bool := true.
Definition neo4j_total_cero (consulta : string) : Z := 0%Z.

(** A source in which every table is empty. *)
Definition pg_vacio (consulta : string) : resultado (list tupla) := Ok [].

(** The statements generated for the example mapping. *)
Definition sentencia_usuarios : string :=
  Eval vm_compute in
    match consulta_nodos entidad_usuarios with
    | Ok c => c
    | Error _ => ""
    end.

Definition sentencia_amistad : string :=
  Eval vm_compute in
    match consulta_relaciones [entidad_usuarios] relacion_amistad with
    | Ok c => c
    | Error _ => ""
    end.

(** Three entities, the second of which cannot be read. *)
Definition entidad_a : entidad := Entidad "a" "A" "SELECT a" [("c", "id")].
Definition entidad_b : entidad := Entidad "b" "B" "SELECT b" [("c", "id")].

Definition mapeo_tres : mapeo_migracion :=
  Mapeo None (Some [entidad_usuarios; entidad_a; entidad_b]) (Some []) [].

Definition pg_falla_a (consulta : string) : resultado (list tupla) :=
  if decide (consulta = "SELECT a") then Error ErrorPostgres
  else pg_ejemplo consulta.

(** A mapping that breaks the first invariant: an empty field map. *)
Definition entidad_sin_campos : entidad :=
  Entidad "vacia" "Vacia" "SELECT v" [].

Definition mapeo_sin_campos : mapeo_migracion :=
  Mapeo (Some (Opciones true false false))
    (Some [entidad_usuarios; entidad_sin_campos]) (Some []) [].

Definition pg_con_vacia (consulta : string) : resultado (list tupla) :=
  if decide (consulta = "SELECT v") then Ok [[VInt 7]]
  else pg_ejemplo consulta.

(** A mapping that breaks the second invariant: an undeclared label. *)
Definition relacion_huerfana : relacion :=
  Relacion "autoria" "PUBLICO" "SELECT autor, post FROM posts"
    "Persona" "Post".

Definition mapeo_huerfano : mapeo_migracion :=
  Mapeo None (Some [entidad_usuarios]) (Some [relacion_huerfana]) [].

Definition pg_con_autoria (consulta : string) : resultado (list tupla) :=
  if decide (consulta = "SELECT autor, post FROM posts") then
    Ok [[VInt 1; VInt 10]]
  else pg_ejemplo consulta.

(** The content [{}] of a mapping file. *)
Definition mapeo_sin_claves : mapeo_migracion := Mapeo None None None [].

(** A source that refuses every query. *)
Definition pg_caido (consulta : string) : resultado (list tupla) :=
  Error ErrorPostgres.

(** A second source, holding one other user, and the record of the
    friendship row of the first. *)
Definition pg_vacio_salvo_usuarios (consulta : string)
    : resultado (list tupla) :=
  if decide (consulta = e_consulta_sql entidad_usuarios) then
    Ok [[VInt 3; VStr "C"; VStr "c@x"]]
  else Ok [].

Definition registro_amistad : parametros :=
  <["id_destino" := VInt 2]> (<["id_origen" := VInt 1]> ∅).

(** * The rest of the module *)

(** The closing line of a transaction function (lines 127 and 142). *)
Definition mensaje_lote (f : funcion_tx) (etiqueta : string) (n : nat)
    : mensaje :=
  match f with
  | CrearNodos => MsgNodosCreados etiqueta n
  | CrearRelaciones => MsgRelacionesCreadas etiqueta n
  end.

(** The identity field of an entity, [list(mapeo.values())[0]], when its
    field map has one. *)
Definition campo_id (e : entidad) : option string :=
  head (valores (mapeo_campos e)).

(** Events of a migration proper: console lines, source queries and
    statements; no connection is opened or closed. *)
Definition de_migracion (ev : evento) : Prop :=
  match ev with
  | EvPrint _ | EvSQL _ | EvRun _ _ | EvExecuteWrite _ _ _ _ => True
  | _ => False
  end.

(** What reaches the two stores: a trace without its console lines. *)
Definition accesos (t : traza) : traza :=
  omap (fun ev => match ev with EvPrint _ => None | _ => Some ev end) t.

(** Two computations that differ at most in what they print. *)
Definition mismo_efecto {A : Type} (m1 m2 : M A) : Prop :=
  accesos m1.1 = accesos m2.1 /\ m1.2 = m2.2.

(** The statement of the index of an entity (line 293), when its field
    map gives it an identity field. *)
Definition sentencia_indice (e : entidad) : option string :=
  consulta_indice (etiqueta_neo4j e) <$> campo_id e.

(** An event that does not send the statement deleting the whole graph. *)
Definition sin_limpiar (ev : evento) : Prop :=
  match ev with
  | EvRun c _ | EvExecuteWrite _ c _ _ => c <> consulta_limpiar
  | _ => True
  end.

(** An event whose statement, if it sends one, is among [cs]. *)
Definition solo_sentencias (cs : list string) (ev : evento) : Prop :=
  match ev with
  | EvRun c _ | EvExecuteWrite _ c _ _ => c ∈ cs
  | _ => True
  end.

(** The four statements of the manual mode. *)
Definition sentencias_manuales : list string :=
  [consulta_usuarios; consulta_posts; consulta_amistad; consulta_publico].

(** ** The window of the graphical mode *)

(** A message box of [QMessageBox]. *)
Inductive dialogo : Type :=
| Informacion (titulo texto : string)
| Critico (titulo : string) (error : excepcion).

(** How the click handler ends: it returns to the event loop, or it is
    left by the [SystemExit] of [sys.exit]. *)
Inductive salida : Type :=
| Vuelve
| SystemExit (codigo : Z).

Definition consola (t : traza) : list (evento + dialogo) := map inl t.

Module AplicacionGUI.
Section Ventana.

Variable pg : string -> resultado (list tupla).
Variable neo4j_acepta : string -> parametros -> bool.
Variable neo4j_total : string -> Z.
Variable conecta_postgres : bool.
Variable conecta_neo4j : bool.
Variable MAPEO_MIGRACION : option mapeo_migracion.
Variable borrar_al_iniciar : bool.

(** Lines 502-524, the handler of the button. [migrador] is the truth
    value of [self.migrador] before the click: [None] in a new window
    (line 479), the migrator of an earlier click afterwards. The result
    holds the events of the click, the truth value of [self.migrador]
    after it, and how the handler ends. [sys.exit(1)] in [__init__]
    raises [SystemExit], which [except Exception] does not catch and
    which leaves [self.migrador] as it was for the [finally] block. *)
Definition ejecutar_migracion (migrador : bool)
    : list (evento + dialogo) * bool * salida :=
  match conectar neo4j_acepta conecta_postgres conecta_neo4j
          borrar_al_iniciar with
  | (t0, Error error) =>
      (consola (t0 ++ [EvPrint (MsgErrorConexion error)])
         ++ consola (if migrador then cerrar_conexiones else []),
       migrador, SystemExit 1)
  | (t0, Ok _) =>
      match ejecutar_migracion pg neo4j_acepta neo4j_total
              MAPEO_MIGRACION with
      | (t1, Ok resultado) =>
          (consola (t0 ++ t1 ++ cerrar_conexiones)
             ++ [inr (Informacion "Éxito" resultado)]
             ++ consola cerrar_conexiones,
           true, Vuelve)
      | (t1, Error error) =>
          (consola (t0 ++ t1) ++ [inr (Critico "Error" error)]
             ++ consola cerrar_conexiones,
           true, Vuelve)
      end
  end.

End Ventana.
End AplicacionGUI.

(** The events of a window on the console and the stores, and its
    message boxes. *)
Definition de_consola (t : list (evento + dialogo)) : traza :=
  omap (fun x => match x with inl ev => Some ev | inr _ => None end) t.

Definition dialogos (t : list (evento + dialogo)) : list dialogo :=
  omap (fun x => match x with inl _ => None | inr d => Some d end) t.

(** The closings of connections in a trace, in program order. *)
Definition cierres (t : traza) : traza :=
  omap (fun ev => match ev with
                  | EvCerrarPostgres | EvCerrarNeo4j => Some ev
                  | _ => None
                  end) t.

(** ** More concrete inputs *)

(** Two more user records, and a store that refuses the second. *)
Definition registro_usuario_b : parametros :=
  <["email" := VStr "b@x"]> (<["nombre" := VStr "B"]> (<["id" := VInt 2]> ∅)).

Definition registro_usuario_c : parametros :=
  <["email" := VStr "c@x"]> (<["nombre" := VStr "C"]> (<["id" := VInt 3]> ∅)).

Definition neo4j_rechaza_b (consulta : string) (params : parametros)
    : bool :=
  negb (bool_decide (params !! "id" = Some (VInt 2))).

(** A store that refuses every statement, and one that refuses nothing
    but indexes. *)
Definition neo4j_rechaza_todo (consulta : string) (params : parametros)
    : bool := false.

Definition neo4j_sin_indices (consulta : string) (params : parametros)
    : bool :=
  negb (bool_decide (consulta = consulta_indice "A" "id")).

(** A field map that renames two columns to the same property. *)
Definition mapeo_repetido : dict := [("c1", "x"); ("c2", "x")].

(** A source whose user table has one row that lacks the last column. *)
Definition pg_fila_corta (consulta : string) : resultado (list tupla) :=
  if decide (consulta = e_consulta_sql entidad_usuarios) then
    Ok [[VInt 1; VStr "A"; VStr "a@x"]; [VInt 2; VStr "B"]]
  else if decide (consulta = r_consulta_sql relacion_amistad) then
    Ok [[VInt 1; VInt 2]; [VInt 2]]
  else Ok [].

(** The example mapping in debug mode with a key the program does not
    read, and two mappings that lack a key. *)
Definition mapeo_ejemplo_debug : mapeo_migracion :=
  Mapeo (Some (Opciones true false true)) (Some [entidad_usuarios])
    (Some [relacion_amistad]) ["version"].

Definition mapeo_solo_opciones : mapeo_migracion :=
  Mapeo (Some (Opciones true false false)) None None [].

Definition mapeo_sin_relaciones : mapeo_migracion :=
  Mapeo None (Some [entidad_usuarios]) None [].

(** A store that keeps of each node of label [Persona] its identity
    value and nothing else. It executes the statement of the example
    entity as the upsert keyed by [id], refusing a missing or null
    identity, and refuses every other statement. *)
Definition almacen_ids (consulta : string) (params : parametros)
    (g : list valor) : option (list valor) :=
  if decide (consulta = sentencia_usuarios) then
    match params !! "id" with
    | Some VNull | None => None
    | Some v => Some (if decide (v ∈ g) then g else g ++ [v])
    end
  else None.

(** The mapping with an empty field map, with indexes requested and
    nothing cleared. *)
Definition mapeo_sin_campos_indices : mapeo_migracion :=
  Mapeo (Some (Opciones false true false))
    (Some [entidad_usuarios; entidad_sin_campos]) (Some []) [].
(** * Properties *)

(** ** Dictionaries and rows *)

Lemma dict_get_elem (d : dict) (k v : string) :
  NoDup (claves d) -> (k, v) ∈ d -> dict_get d k = Some v.
Proof.
  induction d as [|[k' v'] d IH]; simpl; intros Hnd Hin.
  - by apply elem_of_nil in Hin.
  - apply NoDup_cons in Hnd as [Hk' Hnd].
    apply elem_of_cons in Hin as [Heq|Hin].
    + injection Heq as -> ->. by rewrite decide_True.
    + rewrite decide_False; [by apply IH|].
      intros ->. apply Hk'. unfold claves.
      apply (list_elem_of_fmap_2 fst) in Hin. exact Hin.
Qed.

Lemma indice_Some {A : Type} (l : list A) (i : nat) (x : A) :
  l !! i = Some x -> indice l i = Ok x.
Proof. unfold indice. by intros ->. Qed.

(** The loop over the remaining pairs [ps], started at column [i] with
    the record [r] built so far. *)
Lemma llenar_registro_ok (mapeo : dict) (fila : tupla) (ps : dict) :
  forall (i : nat) (r : parametros),
    (forall k p, (k, p) ∈ ps -> dict_get mapeo k = Some p) ->
    NoDup (valores ps) ->
    (forall p, p ∈ valores ps -> r !! p = None) ->
    i + length ps <= length fila ->
    exists r',
      llenar_registro mapeo fila i (claves ps) r = Ok r' /\
      size r' = size r + length ps /\
      (forall q w, r' !! q = Some w <->
         r !! q = Some w \/
         exists j k, ps !! j = Some (k, q) /\ fila !! (i + j) = Some w).
Proof.
  induction ps as [|[k p] ps IH]; simpl; intros i r Hget Hnd Hfresh Hlen.
  - exists r. split; [done|]. split; [lia|].
    intros q w. split; [by left|]. intros [H|(j & k' & H & _)]; [done|].
    by rewrite lookup_nil in H.
  - rewrite (Hget k p) by (apply elem_of_cons; auto).
    apply NoDup_cons in Hnd as [Hp Hnd].
    destruct (lookup_lt_is_Some_2 fila i) as [v Hv]; [lia|].
    rewrite (indice_Some _ _ _ Hv).
    destruct (IH (S i) (<[p:=v]> r)) as (r' & Hrun & Hsize & Hlook).
    + intros k' p' Hin. apply Hget. by apply elem_of_cons; right.
    + done.
    + intros q Hq. rewrite lookup_insert_ne; [|by intros ->].
      apply Hfresh. by apply elem_of_cons; right.
    + lia.
    + exists r'. split; [done|]. split.
      * rewrite Hsize, map_size_insert_None; [lia|].
        apply Hfresh. by apply elem_of_cons; left.
      * intros q w. rewrite Hlook. split.
        -- intros [H|(j & k' & Hj & Hw)].
           ++ destruct (decide (p = q)) as [->|Hne].
              ** rewrite lookup_insert_eq in H. injection H as ->.
                 right. exists 0, k. simpl. by rewrite Nat.add_0_r.
              ** rewrite lookup_insert_ne in H by done. by left.
           ++ right. exists (S j), k'. simpl.
              by rewrite <- Nat.add_succ_comm.
        -- intros [H|(j & k' & Hj & Hw)].
           ++ left. rewrite lookup_insert_ne; [done|].
              intros ->. rewrite Hfresh in H; [done|].
              by apply elem_of_cons; left.
           ++ destruct j as [|j]; simpl in Hj.
              ** injection Hj as -> ->. rewrite Nat.add_0_r in Hw.
                 left. rewrite lookup_insert_eq. congruence.
              ** right. exists j, k'. split; [done|].
                 by rewrite Nat.add_succ_comm.
Qed.

(** A row with too few columns stops the loop with [IndexError]. *)
Lemma llenar_registro_corta (mapeo : dict) (fila : tupla) (ps : dict) :
  forall (i : nat) (r : parametros),
    (forall k p, (k, p) ∈ ps -> dict_get mapeo k = Some p) ->
    i <= length fila -> length fila < i + length ps ->
    llenar_registro mapeo fila i (claves ps) r = Error IndexError.
Proof.
  induction ps as [|[k p] ps IH]; simpl; intros i r Hget Hi Hlen; [lia|].
  rewrite (Hget k p) by (apply elem_of_cons; auto).
  destruct (fila !! i) as [v|] eqn:Hv.
  - rewrite (indice_Some _ _ _ Hv). apply lookup_lt_Some in Hv.
    apply IH; [|lia|lia].
    intros k' p' Hin. apply Hget. by apply elem_of_cons; right.
  - unfold indice. by rewrite Hv.
Qed.

(** C2, as amended. Under a field map whose target property names are
    pairwise distinct (its source-column keys being distinct, as in any
    JSON object), a row with at least as many columns as the map has
    entries is converted to a record with exactly one property per entry,
    named by the target property and holding the column at the entry's
    position, nothing extra and nothing missing; a shorter row raises
    [IndexError]. *)
Theorem convertir_fila_fiel (mapeo : dict) (fila : tupla) :
  NoDup (claves mapeo) ->
  NoDup (valores mapeo) ->
  (length mapeo <= length fila ->
     exists r, convertir_fila mapeo fila = Ok r /\ fiel mapeo fila r) /\
  (length fila < length mapeo ->
     convertir_fila mapeo fila = Error IndexError).
Proof.
  intros Hk Hv.
  assert (Hget : forall k p, (k, p) ∈ mapeo -> dict_get mapeo k = Some p)
    by (intros k p; by apply dict_get_elem).
  split; intros Hlen.
  - destruct (llenar_registro_ok mapeo fila mapeo 0 ∅)
      as (r & Hrun & Hsize & Hlook); try done.
    exists r. split; [exact Hrun|]. split; [|split].
    + by rewrite Hsize, map_size_empty.
    + intros i k p Hi.
      destruct (lookup_lt_is_Some_2 fila i) as [v Hfv].
      { apply lookup_lt_Some in Hi. lia. }
      exists v. split; [done|]. apply Hlook. right. by exists i, k.
    + intros p v Hr. apply Hlook in Hr as [Hr|(i & k & Hi & Hfv)].
      * by rewrite lookup_empty in Hr.
      * by exists i, k.
  - apply llenar_registro_corta; [done|lia|simpl; lia].
Qed.

Lemma convertir_fila_fiel_witness :
  (exists r, convertir_fila mapeo_usuarios fila_usuario = Ok r
             /\ fiel mapeo_usuarios fila_usuario r)
  /\ convertir_fila mapeo_usuarios [VInt 1; VStr "A"] = Error IndexError.
Proof.
  assert (Hk : NoDup (claves mapeo_usuarios))
    by (apply (bool_decide_unpack _); vm_compute; exact I).
  assert (Hv : NoDup (valores mapeo_usuarios))
    by (apply (bool_decide_unpack _); vm_compute; exact I).
  split.
  - apply (convertir_fila_fiel mapeo_usuarios fila_usuario Hk Hv).
    simpl. lia.
  - apply (convertir_fila_fiel mapeo_usuarios [VInt 1; VStr "A"] Hk Hv).
    simpl. lia.
Defined.

(** C2 as stated fails: two entries renamed to the same property leave one
    property where two entries were declared, and a row shorter than the
    field map yields no record at all. *)
Lemma convertir_fila_no_siempre_fiel :
  (~ exists r,
       convertir_fila [("c1", "x"); ("c2", "x")] [VInt 1; VInt 2] = Ok r
       /\ fiel [("c1", "x"); ("c2", "x")] [VInt 1; VInt 2] r)
  /\ convertir_fila [("c1", "x")] [] = Error IndexError.
Proof.
  split; [|reflexivity].
  intros (r & Hrun & Hsize & _).
  assert (Hr : convertir_fila [("c1", "x"); ("c2", "x")] [VInt 1; VInt 2]
               = Ok (<["x" := VInt 2]> (<["x" := VInt 1]> ∅)))
    by reflexivity.
  rewrite Hr in Hrun. injection Hrun as <-.
  rewrite insert_insert_eq, insert_empty, map_size_singleton in Hsize.
  simpl in Hsize. lia.
Qed.

(** ** Relationship rows *)

Lemma convertir_todas_Forall {A B : Type} (f : A -> resultado B)
    (P : A -> Prop) (l : list A) :
  (forall x, P x <-> exists y, f x = Ok y) ->
  Forall P l <-> exists ys, convertir_todas f l = Ok ys.
Proof.
  intros HP. induction l as [|x l IH]; simpl.
  - split; [by exists []|constructor].
  - rewrite Forall_cons, IH, HP. split.
    + intros [[y ->] [ys ->]]. by exists (y :: ys).
    + intros [ys H]. destruct (f x) as [y|]; [|done].
      destruct (convertir_todas f l) as [ys'|]; [|done]. eauto.
Qed.

Lemma convertir_fila_relacion_corta (fila : tupla) :
  length fila < 2 -> convertir_fila_relacion fila = Error IndexError.
Proof.
  destruct fila as [|o [|d resto]]; simpl; intros H; try reflexivity. lia.
Qed.

Lemma convertir_todas_relacion (datos : list tupla) :
  Forall (fun fila => 2 <= length fila) datos <->
  exists regs, convertir_todas convertir_fila_relacion datos = Ok regs.
Proof.
  apply convertir_todas_Forall. intros fila. split.
  - destruct fila as [|o [|d resto]]; simpl; intros H; try lia. eauto.
  - intros [y Hy]. destruct (decide (length fila < 2)) as [Hlt|]; [|lia].
    rewrite (convertir_fila_relacion_corta _ Hlt) in Hy. discriminate.
Qed.

(** C10. A relationship row with two or more columns is converted from
    its columns 0 and 1 alone, whatever follows them; a row with fewer
    than two columns raises [IndexError]; the conversion of a whole
    result set returns exactly when every row has at least two columns. *)
Theorem convertir_fila_relacion_columnas :
  (forall (o d : valor) (resto : tupla),
     convertir_fila_relacion (o :: d :: resto)
     = Ok (<["id_destino" := d]> (<["id_origen" := o]> ∅))) /\
  (forall fila : tupla,
     length fila < 2 -> convertir_fila_relacion fila = Error IndexError) /\
  (forall datos : list tupla,
     Forall (fun fila => 2 <= length fila) datos <->
     exists regs, convertir_todas convertir_fila_relacion datos = Ok regs).
Proof.
  split; [reflexivity|]. split.
  - apply convertir_fila_relacion_corta.
  - apply convertir_todas_relacion.
Qed.

Lemma convertir_fila_relacion_columnas_witness :
  convertir_fila_relacion [VInt 1] = Error IndexError.
Proof.
  apply (proj1 (proj2 convertir_fila_relacion_columnas) [VInt 1]).
  simpl. lia.
Defined.

(** ** The effect monad *)

Lemma bind_ok {A B : Type} (m : M A) (f : A -> M B) (t : traza) (a : A) :
  m = (t, Ok a) -> bind m f = (t ++ (f a).1, (f a).2).
Proof. intros ->. unfold bind. by destruct (f a). Qed.

Section Bucles.

Context {A : Type} (f : A -> M unit).

Local Abbreviation bien := (termina_bien f).

Lemma para_cada_cons_ok (x : A) (l : list A) :
  bien x ->
  para_cada f (x :: l) = ((f x).1 ++ (para_cada f l).1, (para_cada f l).2).
Proof.
  unfold termina_bien. intros Hx. simpl. destruct (f x) as [t r]. simpl in Hx.
  subst r. by apply (bind_ok _ (fun _ => para_cada f l) t tt).
Qed.

Lemma para_cada_cons_error (x : A) (l : list A) (e : excepcion) :
  (f x).2 = Error e -> para_cada f (x :: l) = ((f x).1, Error e).
Proof.
  intros Hx. simpl. destruct (f x) as [t r]. simpl in Hx. by subst r.
Qed.

Lemma para_cada_ok (l : list A) :
  Forall bien l ->
  para_cada f l = (concat (map (fun x => (f x).1) l), Ok tt).
Proof.
  induction 1 as [|x l Hx _ IH]; [reflexivity|].
  rewrite para_cada_cons_ok, IH by done. reflexivity.
Qed.

Lemma para_cada_falla (l1 : list A) (x : A) (l2 : list A) (e : excepcion) :
  Forall bien l1 -> (f x).2 = Error e ->
  para_cada f (l1 ++ x :: l2)
  = (concat (map (fun x => (f x).1) l1) ++ (f x).1, Error e).
Proof.
  intros Hl1 Hx. induction Hl1 as [|y l1 Hy _ IH].
  - by apply para_cada_cons_error.
  - rewrite <- app_comm_cons, para_cada_cons_ok, IH by done. simpl.
    by rewrite app_assoc.
Qed.

Lemma para_cada_casos (l : list A) :
  Forall bien l \/
  exists l1 x l2 e,
    l = l1 ++ x :: l2 /\ Forall bien l1 /\ (f x).2 = Error e.
Proof.
  induction l as [|x l IH]; [by left|].
  destruct (f x) as [t [[]|e]] eqn:Hx.
  - destruct IH as [IH|(l1 & y & l2 & e & -> & Hl1 & Hy)].
    + left. constructor; [|done]. unfold termina_bien. by rewrite Hx.
    + right. exists (x :: l1), y, l2, e. split; [done|]. split; [|done].
      constructor; [|done]. unfold termina_bien. by rewrite Hx.
  - right. exists [], x, l, e. split; [done|]. split; [constructor|].
    by rewrite Hx.
Qed.

(** In every case the loop has run a prefix of the list, all of it
    when it ends without exception. *)
Lemma para_cada_prefijo (l : list A) :
  exists n,
    (para_cada f l).1 = concat (map (fun x => (f x).1) (take n l))
    /\ ((para_cada f l).2 = Ok tt -> take n l = l)
    /\ (forall e, (para_cada f l).2 = Error e -> n <= length l).
Proof.
  destruct (para_cada_casos l) as [Hl|(l1 & x & l2 & e & -> & Hl1 & Hx)].
  - exists (length l). rewrite firstn_all, para_cada_ok by done.
    split; [done|]. split; [done|]. intros; lia.
  - exists (S (length l1)). rewrite (para_cada_falla _ _ _ e) by done.
    replace (take (S (length l1)) (l1 ++ x :: l2)) with (l1 ++ [x]).
    + simpl. split; [|split; [done|]].
      * by rewrite map_app, concat_app; simpl; rewrite app_nil_r.
      * intros _ _. rewrite length_app. simpl. lia.
    + rewrite take_app_ge by lia.
      replace (S (length l1) - length l1) with 1 by lia.
      simpl. by rewrite take_0.
Qed.

End Bucles.

(** ** Rows and records of a batch *)

Lemma convertir_todas_elem {A B : Type} (f : A -> resultado B) (l : list A)
    (ys : list B) (y : B) :
  convertir_todas f l = Ok ys -> y ∈ ys -> exists x, x ∈ l /\ f x = Ok y.
Proof.
  revert ys. induction l as [|x l IH]; simpl; intros ys Hl Hy.
  - injection Hl as <-. by apply elem_of_nil in Hy.
  - destruct (f x) as [y'|] eqn:Hx; [|done].
    destruct (convertir_todas f l) as [ys'|]; [|done].
    injection Hl as <-. apply elem_of_cons in Hy as [->|Hy].
    + exists x. split; [by left|done].
    + destruct (IH ys' eq_refl Hy) as (x' & Hx' & Hfx').
      exists x'. split; [by right|done].
Qed.

Lemma omap_nil_Forall {A B : Type} (g : A -> option B) (l : list A) :
  Forall (fun x => g x = None) l -> omap g l = [].
Proof. induction 1 as [|x l Hx _ IH]; simpl; [done|]. by rewrite Hx. Qed.

(** ** One unit of work *)

Section Unidades.

Variable pg : string -> resultado (list tupla).
Variable neo4j_acepta : string -> parametros -> bool.

Lemma para_cada_run (c : string) (regs : list parametros) :
  Forall (de_lote c regs) (para_cada (run neo4j_acepta c) regs).1.
Proof.
  induction regs as [|p regs IH]; simpl; [constructor|].
  unfold run at 1, bind, emitir at 1. simpl.
  destruct (neo4j_acepta c p); simpl.
  - destruct (para_cada (run neo4j_acepta c) regs) as [t r]. simpl in *.
    constructor.
    + left. exists p. split; [by left|done].
    + eapply Forall_impl; [exact IH|].
      intros ev [(q & Hq & ->)|Hm]; [|by right].
      left. exists q. split; [by right|done].
  - constructor; [|constructor]. left. exists p. split; [by left|done].
Qed.

Lemma execute_write_forma (f : funcion_tx) (c : string)
    (regs : list parametros) (etiqueta : string) :
  exists t,
    (execute_write neo4j_acepta f c regs etiqueta).1
    = EvExecuteWrite f c regs etiqueta :: t
    /\ Forall (de_lote c regs) t.
Proof.
  pose proof (para_cada_run c regs) as Hrun.
  unfold execute_write, crear_nodos_neo4j, crear_relaciones_neo4j,
    imprimir, bind, emitir.
  destruct (para_cada (run neo4j_acepta c) regs) as [t [[]|e]];
    simpl in Hrun; destruct f; simpl; eexists; (split; [reflexivity|]);
    rewrite ?app_nil_r; try done;
    (apply Forall_app; split; [done|]);
    constructor; [|constructor| |constructor]; right; eauto.
Qed.

(** [migrar_entidad] with its sequencing unfolded. *)
Lemma migrar_entidad_eq (opc : opciones_t) (e : entidad) :
  migrar_entidad pg neo4j_acepta opc e =
  match pg (e_consulta_sql e) with
  | Error err => (cabecera_entidad e, Error err)
  | Ok [] => (cabecera_entidad e ++ [EvPrint (MsgSinDatos (e_nombre e))],
              Ok tt)
  | Ok datos =>
      match convertir_todas (convertir_fila (mapeo_campos e)) datos with
      | Error err => (cabecera_entidad e, Error err)
      | Ok regs =>
          match consulta_nodos e with
          | Error err => (cabecera_entidad e, Error err)
          | Ok c =>
              let w := execute_write neo4j_acepta CrearNodos c regs
                         (etiqueta_neo4j e) in
              (cabecera_entidad e ++ aviso_debug opc c ++ w.1, w.2)
          end
      end
  end.
Proof.
  unfold migrar_entidad, obtener_datos_postgresql, cabecera_entidad,
    aviso_debug, cuando, imprimir, elevar, emitir, bind.
  destruct (pg (e_consulta_sql e)) as [[|fila datos]|err]; try reflexivity.
  destruct (convertir_todas _ _) as [regs|err]; [|reflexivity].
  destruct (consulta_nodos e) as [c|err]; [|reflexivity].
  destruct (execute_write _ _ _ _ _) as [t r].
  destruct (modo_debug opc); reflexivity.
Qed.

(** [migrar_relacion] with its sequencing unfolded. *)
Lemma migrar_relacion_eq (opc : opciones_t) (es : list entidad)
    (r : relacion) :
  migrar_relacion pg neo4j_acepta opc es r =
  match pg (r_consulta_sql r) with
  | Error err => (cabecera_relacion r, Error err)
  | Ok [] =>
      (cabecera_relacion r ++ [EvPrint (MsgSinRelaciones (r_nombre r))],
       Ok tt)
  | Ok datos =>
      match convertir_todas convertir_fila_relacion datos with
      | Error err => (cabecera_relacion r, Error err)
      | Ok regs =>
          match consulta_relaciones es r with
          | Error err => (cabecera_relacion r, Error err)
          | Ok c =>
              let w := execute_write neo4j_acepta CrearRelaciones c regs
                         (tipo_relacion r) in
              (cabecera_relacion r ++ aviso_debug opc c ++ w.1, w.2)
          end
      end
  end.
Proof.
  unfold migrar_relacion, obtener_datos_postgresql, cabecera_relacion,
    aviso_debug, cuando, imprimir, elevar, emitir, bind.
  destruct (pg (r_consulta_sql r)) as [[|fila datos]|err]; try reflexivity.
  destruct (convertir_todas _ _) as [regs|err]; [|reflexivity].
  destruct (consulta_relaciones es r) as [c|err]; [|reflexivity].
  destruct (execute_write _ _ _ _ _) as [t res].
  destruct (modo_debug opc); reflexivity.
Qed.

(** Every event of one entity is a console line, its source query, the
    opening of its write transaction or a [run] inside it; the last two
    carry the statement generated from the entity and the records
    converted from its rows. *)
Lemma migrar_entidad_eventos (opc : opciones_t) (e : entidad)
    (ev : evento) :
  ev ∈ (migrar_entidad pg neo4j_acepta opc e).1 ->
  (exists m, ev = EvPrint m) \/ ev = EvSQL (e_consulta_sql e) \/
  exists datos regs c,
    pg (e_consulta_sql e) = Ok datos /\
    convertir_todas (convertir_fila (mapeo_campos e)) datos = Ok regs /\
    consulta_nodos e = Ok c /\
    (ev = EvExecuteWrite CrearNodos c regs (etiqueta_neo4j e) \/
     exists p, p ∈ regs /\ ev = EvRun c p).
Proof.
  rewrite migrar_entidad_eq.
  assert (Hcab : ev ∈ cabecera_entidad e ->
                 (exists m, ev = EvPrint m) \/ ev = EvSQL (e_consulta_sql e)
                 \/ False).
  { unfold cabecera_entidad. rewrite !elem_of_cons, elem_of_nil.
    intros [->|[->|[]]]; eauto. }
  destruct (pg (e_consulta_sql e)) as [datos|err] eqn:Hpg.
  2:{ intros H. destruct (Hcab H) as [?|[?|[]]]; auto. }
  destruct datos as [|fila datos].
  { cbn [fst]. rewrite elem_of_app, list_elem_of_singleton.
    intros [H| ->]; [|eauto]. destruct (Hcab H) as [?|[?|[]]]; auto. }
  destruct (convertir_todas _ _) as [regs|err] eqn:Hconv.
  2:{ intros H. destruct (Hcab H) as [?|[?|[]]]; auto. }
  destruct (consulta_nodos e) as [c|err] eqn:Hc.
  2:{ intros H. destruct (Hcab H) as [?|[?|[]]]; auto. }
  cbv zeta. cbn [fst].
  destruct (execute_write_forma CrearNodos c regs (etiqueta_neo4j e))
    as (t & -> & Ht).
  rewrite !elem_of_app, elem_of_cons.
  intros [H|[H|[->|H]]].
  - destruct (Hcab H) as [?|[?|[]]]; auto.
  - left. unfold aviso_debug in H. destruct (modo_debug opc).
    + apply list_elem_of_singleton in H. eauto.
    + by apply elem_of_nil in H.
  - right; right. exists (fila :: datos), regs, c. auto.
  - rewrite Forall_forall in Ht.
    destruct (Ht _ H) as [(p & Hp & ->)|Hm]; [|by left].
    right; right. exists (fila :: datos), regs, c. eauto 10.
Qed.

Lemma migrar_relacion_eventos (opc : opciones_t) (es : list entidad)
    (r : relacion) (ev : evento) :
  ev ∈ (migrar_relacion pg neo4j_acepta opc es r).1 ->
  (exists m, ev = EvPrint m) \/ ev = EvSQL (r_consulta_sql r) \/
  exists datos regs c,
    pg (r_consulta_sql r) = Ok datos /\
    convertir_todas convertir_fila_relacion datos = Ok regs /\
    consulta_relaciones es r = Ok c /\
    (ev = EvExecuteWrite CrearRelaciones c regs (tipo_relacion r) \/
     exists p, p ∈ regs /\ ev = EvRun c p).
Proof.
  rewrite migrar_relacion_eq.
  assert (Hcab : ev ∈ cabecera_relacion r ->
                 (exists m, ev = EvPrint m) \/ ev = EvSQL (r_consulta_sql r)
                 \/ False).
  { unfold cabecera_relacion. rewrite !elem_of_cons, elem_of_nil.
    intros [->|[->|[]]]; eauto. }
  destruct (pg (r_consulta_sql r)) as [datos|err] eqn:Hpg.
  2:{ intros H. destruct (Hcab H) as [?|[?|[]]]; auto. }
  destruct datos as [|fila datos].
  { cbn [fst]. rewrite elem_of_app, list_elem_of_singleton.
    intros [H| ->]; [|eauto]. destruct (Hcab H) as [?|[?|[]]]; auto. }
  destruct (convertir_todas _ _) as [regs|err] eqn:Hconv.
  2:{ intros H. destruct (Hcab H) as [?|[?|[]]]; auto. }
  destruct (consulta_relaciones es r) as [c|err] eqn:Hc.
  2:{ intros H. destruct (Hcab H) as [?|[?|[]]]; auto. }
  cbv zeta. cbn [fst].
  destruct (execute_write_forma CrearRelaciones c regs (tipo_relacion r))
    as (t & -> & Ht).
  rewrite !elem_of_app, elem_of_cons.
  intros [H|[H|[->|H]]].
  - destruct (Hcab H) as [?|[?|[]]]; auto.
  - left. unfold aviso_debug in H. destruct (modo_debug opc).
    + apply list_elem_of_singleton in H. eauto.
    + by apply elem_of_nil in H.
  - right; right. exists (fila :: datos), regs, c. auto.
  - rewrite Forall_forall in Ht.
    destruct (Ht _ H) as [(p & Hp & ->)|Hm]; [|by left].
    right; right. exists (fila :: datos), regs, c. eauto 10.
Qed.

End Unidades.

(** ** The node statement and its repetition *)

Lemma join_concat (sep : string) (l : list string) :
  join sep l = String.concat sep l.
Proof.
  induction l as [|x l IH]; [reflexivity|].
  destruct l as [|y l]; [reflexivity|].
  change (x +:+ sep +:+ join sep (y :: l)
          = x +:+ sep +:+ String.concat sep (y :: l)).
  by rewrite IH.
Qed.

(** The text of the generator against the statement of the design. *)
Lemma consulta_nodos_texto (e : entidad) (id_campo : string) :
  head (valores (mapeo_campos e)) = Some id_campo ->
  consulta_nodos e
  = Ok (sentencia_upsert (etiqueta_neo4j e) id_campo
          (valores (mapeo_campos e))).
Proof.
  intros Hid. unfold consulta_nodos. cbv zeta.
  destruct (valores (mapeo_campos e)) as [|c campos] eqn:Hv; [done|].
  injection Hid as ->. cbn [indice lookup list_lookup].
  unfold texto_consulta_nodos, sentencia_upsert.
  rewrite join_concat. reflexivity.
Qed.

Section Repeticion.

Context {grafo : Type}.
Variable ejecutar : string -> parametros -> grafo -> option grafo.
Variable nodos : grafo -> nat.
Variable hay : grafo -> valor -> Prop.
Variable c : string.
Variable id_campo : string.
Hypothesis Hupsert : es_upsert nodos hay id_campo (ejecutar c).
Hypothesis Hacepta : acepta_por_parametros (ejecutar c).

(** After a trace that sends no statement but [c], the identities that
    existed still do, and each record sent was accepted and has its
    identity in the store. *)
Lemma efecto_presentes (t : traza) :
  Forall (solo_sentencias [c]) t ->
  forall g g1 : grafo,
    efecto ejecutar t g = Some g1 ->
    (forall w, hay g w -> hay g1 w)
    /\ Forall (fun ev => match ev with
                         | EvRun _ p =>
                             (exists g0, is_Some (ejecutar c p g0))
                             /\ forall v, p !! id_campo = Some v -> hay g1 v
                         | _ => True
                         end) t.
Proof.
  induction 1 as [|ev t Hev _ IH]; intros g g1 Hg; simpl in Hg.
  - injection Hg as <-. by split.
  - destruct ev as [m| | | | |q|c' p|f c' regs et];
      try (destruct (IH _ _ Hg) as [H1 H2]; split; [done|by constructor]).
    simpl in Hev. apply list_elem_of_singleton in Hev as ->.
    destruct (ejecutar c p g) as [g'|] eqn:Hp; [|done].
    destruct (IH _ _ Hg) as [H1 H2].
    destruct (Hupsert _ _ _ Hp) as (v & Hv & Hg' & _ & Hkeep).
    split; [by auto|]. constructor; [|done]. split.
    + exists g. by rewrite Hp.
    + intros v' Hv'. rewrite Hv in Hv'. injection Hv' as <-. by apply H1.
Qed.

(** On a store that holds the identity of every record of the trace, the
    trace is executed again without adding a node. *)
Lemma efecto_repetido (t : traza) :
  Forall (solo_sentencias [c]) t ->
  forall g : grafo,
    Forall (fun ev => match ev with
                      | EvRun _ p =>
                          (exists g0, is_Some (ejecutar c p g0))
                          /\ forall v, p !! id_campo = Some v -> hay g v
                      | _ => True
                      end) t ->
    exists g2, efecto ejecutar t g = Some g2 /\ nodos g2 = nodos g
               /\ forall w, hay g w -> hay g2 w.
Proof.
  induction 1 as [|ev t Hev _ IH]; intros g Ht.
  - exists g. by repeat split.
  - apply Forall_cons in Ht as [Hp Ht].
    destruct ev as [m| | | | |q|c' p|f c' regs et]; simpl; try by apply IH.
    simpl in Hev. apply list_elem_of_singleton in Hev as ->.
    destruct Hp as [[g0 Hg0] Hid].
    destruct (Hacepta p g0 g Hg0) as [g' Hg'].
    destruct (Hupsert _ _ _ Hg') as (v & Hv & _ & Hsame & Hkeep).
    rewrite Hg'. destruct (IH g') as (g2 & Hg2 & Hn & Hk).
    { eapply Forall_impl; [exact Ht|]. intros [] H; try done.
      destruct H as [H1 H2]. split; [done|]. by auto. }
    exists g2. split; [done|]. split; [|by auto].
    rewrite Hn. apply Hsame. by apply Hid.
Qed.

End Repeticion.

(** C1. For an entity whose field map is not empty the generated node
    statement is, character by character, the upsert of the design: it
    merges on one property, the first mapped one, and sets every mapped
    property in order, the identity property among them. Sent to a store
    that executes this statement as the upsert keyed by that property,
    and that accepts a statement by its parameters alone, the migration
    of the entity from the same source data, run a second time on what a
    first run that returned has left, is executed to the end and leaves
    as many nodes as it found: it adds none. *)
Theorem consulta_nodos_upsert (e : entidad) :
  mapeo_campos e <> [] ->
  exists id_campo : string,
    head (valores (mapeo_campos e)) = Some id_campo /\
    id_campo ∈ valores (mapeo_campos e) /\
    consulta_nodos e
    = Ok (sentencia_upsert (etiqueta_neo4j e) id_campo
            (valores (mapeo_campos e))) /\
    (forall (grafo : Type)
            (ejecutar : string -> parametros -> grafo -> option grafo)
            (nodos : grafo -> nat) (hay : grafo -> valor -> Prop)
            (c : string),
       consulta_nodos e = Ok c ->
       es_upsert nodos hay id_campo (ejecutar c) ->
       acepta_por_parametros (ejecutar c) ->
       forall (pg : string -> resultado (list tupla))
              (neo4j_acepta : string -> parametros -> bool)
              (opc : opciones_t) (g g1 : grafo),
         let t := (migrar_entidad pg neo4j_acepta opc e).1 in
         termina_bien (migrar_entidad pg neo4j_acepta opc) e ->
         efecto ejecutar t g = Some g1 ->
         exists g2, efecto ejecutar t g1 = Some g2 /\ nodos g2 = nodos g1).
Proof.
  intros Hne.
  destruct (valores (mapeo_campos e)) as [|id_campo campos] eqn:Hv.
  { destruct (mapeo_campos e); [done|discriminate]. }
  exists id_campo. split; [done|]. split; [by left|]. split.
  { rewrite <- Hv. apply consulta_nodos_texto. by rewrite Hv. }
  intros grafo ejecutar nodos hay c Hc Hupsert Hacepta pg neo4j_acepta opc
    g g1 t _ Hg.
  assert (Ht : Forall (solo_sentencias [c]) t).
  { apply Forall_forall. intros ev Hev. subst t.
    apply migrar_entidad_eventos in Hev
      as [(m & ->)|[->|(datos & regs & c' & _ & _ & Hc' & [->|(p & _ & ->)])]];
      simpl; try done; rewrite Hc in Hc'; injection Hc' as <-; by left. }
  destruct (efecto_presentes ejecutar nodos hay c id_campo Hupsert t Ht
              g g1 Hg) as [_ Hpres].
  destruct (efecto_repetido ejecutar nodos hay c id_campo Hupsert Hacepta
              t Ht g1 Hpres) as (g2 & Hg2 & Hn & _).
  by exists g2.
Qed.

Lemma almacen_ids_es_upsert :
  es_upsert (length : list valor -> nat) (fun g v => v ∈ g) "id"
    (almacen_ids sentencia_usuarios).
Proof.
  intros p g g' H. unfold almacen_ids in H.
  rewrite decide_True in H by done.
  destruct (p !! "id") as [v|]; [|done].
  assert (Hv : Some (if decide (v ∈ g) then g else g ++ [v]) = Some g'
               -> exists v0 : valor,
                    Some v = Some v0 /\ v0 ∈ g'
                    /\ (v0 ∈ g -> length g' = length g)
                    /\ forall w, w ∈ g -> w ∈ g').
  { intros [= <-]. exists v. split; [done|].
    destruct (decide (v ∈ g)) as [Hin|Hin].
    - by repeat split.
    - split; [apply elem_of_app; right; by left|]. split; [done|].
      intros w Hw. apply elem_of_app. by left. }
  destruct v; try exact (Hv H). done.
Qed.

Lemma almacen_ids_acepta :
  acepta_por_parametros (almacen_ids sentencia_usuarios).
Proof.
  intros p g1 g2. unfold almacen_ids. rewrite decide_True by done.
  destruct (p !! "id") as [[]|]; intros [x Hx]; try done; by eexists.
Qed.

Lemma consulta_nodos_upsert_witness :
  consulta_nodos entidad_usuarios
  = Ok (sentencia_upsert "Persona" "id" ["id"; "nombre"; "email"])
  /\ efecto almacen_ids
       (migrar_entidad pg_ejemplo neo4j_acepta_todo sin_opciones
          entidad_usuarios).1 [VInt 1]
     = Some [VInt 1; VInt 2]
  /\ exists g2,
       efecto almacen_ids
         (migrar_entidad pg_ejemplo neo4j_acepta_todo sin_opciones
            entidad_usuarios).1 [VInt 1; VInt 2]
       = Some g2
       /\ length g2 = 2.
Proof.
  destruct (consulta_nodos_upsert entidad_usuarios) as (id & Hid & _ & Ht & Hr);
    [discriminate|].
  injection Hid as <-. split; [exact Ht|]. split; [vm_compute; reflexivity|].
  apply (Hr (list valor) almacen_ids length (fun g v => v ∈ g)
            sentencia_usuarios eq_refl almacen_ids_es_upsert
            almacen_ids_acepta pg_ejemplo neo4j_acepta_todo sin_opciones
            [VInt 1] [VInt 1; VInt 2]).
  - vm_compute. reflexivity.
  - vm_compute. reflexivity.
Defined.

(** ** Projections of the traces *)

Lemma Forall_bind {A B : Type} (P : evento -> Prop) (m : M A) (f : A -> M B) :
  Forall P m.1 -> (forall a, Forall P (f a).1) -> Forall P (bind m f).1.
Proof.
  intros Hm Hf. destruct m as [t [a|e]]; simpl in *; [|done].
  specialize (Hf a). destruct (f a) as [t' r]. simpl in *.
  by apply Forall_app.
Qed.

Lemma Forall_para_cada {A : Type} (P : evento -> Prop) (f : A -> M unit)
    (l : list A) :
  (forall x, Forall P (f x).1) -> Forall P (para_cada f l).1.
Proof.
  intros Hf. induction l as [|x l IH]; simpl; [constructor|].
  apply Forall_bind; [apply Hf|done].
Qed.

Lemma consultas_sql_app (t1 t2 : traza) :
  consultas_sql (t1 ++ t2) = consultas_sql t1 ++ consultas_sql t2.
Proof. apply omap_app. Qed.

Lemma escrituras_app (t1 t2 : traza) :
  escrituras (t1 ++ t2) = escrituras t1 ++ escrituras t2.
Proof. apply omap_app. Qed.

Lemma de_lote_proyecciones (c : string) (regs : list parametros) (t : traza) :
  Forall (de_lote c regs) t -> consultas_sql t = [] /\ escrituras t = [].
Proof.
  intros Ht. split; apply omap_nil_Forall; (eapply Forall_impl; [exact Ht|]);
    by intros ev [(p & _ & ->)|(m & ->)].
Qed.

Lemma fuera_de_lote_proyecciones (t : traza) :
  Forall fuera_de_lote t -> consultas_sql t = [] /\ escrituras t = [].
Proof.
  intros Ht. split; apply omap_nil_Forall; (eapply Forall_impl; [exact Ht|]);
    by intros [].
Qed.

Section Proyecciones.

Variable pg : string -> resultado (list tupla).
Variable neo4j_acepta : string -> parametros -> bool.
Variable neo4j_total : string -> Z.

Lemma run_fuera_de_lote (c : string) (p : parametros) :
  Forall fuera_de_lote (run neo4j_acepta c p).1.
Proof.
  unfold run, bind, emitir. simpl.
  destruct (neo4j_acepta c p); simpl; by repeat constructor.
Qed.

Lemma imprimir_fuera_de_lote (m : mensaje) :
  Forall fuera_de_lote (imprimir m).1.
Proof. by repeat constructor. Qed.

Local Ltac componer :=
  repeat first
    [ apply imprimir_fuera_de_lote
    | apply run_fuera_de_lote
    | apply Forall_nil_2
    | apply Forall_bind; [|intros _] ].

Lemma preludio_fuera_de_lote (opc : opciones_t) :
  Forall fuera_de_lote (preludio neo4j_acepta opc).1.
Proof.
  unfold preludio, cuando. destruct (limpiar_neo4j_antes opc); componer.
Qed.

Lemma crear_indice_fuera_de_lote (e : entidad) :
  Forall fuera_de_lote (crear_indice neo4j_acepta e).1.
Proof.
  unfold crear_indice, elevar, intentar, imprimir, bind, emitir, run.
  destruct (indice _ 0) as [id_campo|err]; simpl; [|constructor].
  destruct (neo4j_acepta _ _); simpl; by repeat constructor.
Qed.

Lemma epilogo_fuera_de_lote (opc : opciones_t) (es : list entidad)
    (rs : list relacion) :
  Forall fuera_de_lote (epilogo neo4j_acepta neo4j_total opc es rs).1.
Proof.
  assert (Hi : Forall fuera_de_lote
                 (para_cada (crear_indice neo4j_acepta) es).1)
    by apply Forall_para_cada, crear_indice_fuera_de_lote.
  assert (Hn : Forall fuera_de_lote
                 (para_cada (contar_nodos neo4j_acepta neo4j_total) es).1)
    by (apply Forall_para_cada; intros e; unfold contar_nodos; componer).
  assert (Hr : Forall fuera_de_lote
                 (para_cada (contar_relaciones neo4j_acepta neo4j_total)
                    rs).1)
    by (apply Forall_para_cada; intros r; unfold contar_relaciones;
        componer).
  unfold epilogo, cuando, ret.
  destruct (crear_indices opc);
    repeat first
      [ exact Hi | exact Hn | exact Hr
      | apply imprimir_fuera_de_lote
      | apply Forall_nil_2
      | apply Forall_bind; [|intros _] ].
Qed.

Lemma execute_write_proyecciones (f : funcion_tx) (c : string)
    (regs : list parametros) (etiqueta : string) :
  consultas_sql (execute_write neo4j_acepta f c regs etiqueta).1 = []
  /\ escrituras (execute_write neo4j_acepta f c regs etiqueta).1
     = [(f, etiqueta)].
Proof.
  destruct (execute_write_forma neo4j_acepta f c regs etiqueta)
    as (t & -> & Ht).
  apply de_lote_proyecciones in Ht as [Hc He].
  change (EvExecuteWrite f c regs etiqueta :: t)
    with ([EvExecuteWrite f c regs etiqueta] ++ t).
  by rewrite consultas_sql_app, escrituras_app, Hc, He.
Qed.

Lemma aviso_debug_proyecciones (opc : opciones_t) (c : string) :
  consultas_sql (aviso_debug opc c) = []
  /\ escrituras (aviso_debug opc c) = [].
Proof. unfold aviso_debug. by destruct (modo_debug opc). Qed.

Lemma consultas_sql_entidad (opc : opciones_t) (e : entidad) :
  consultas_sql (migrar_entidad pg neo4j_acepta opc e).1
  = [e_consulta_sql e].
Proof.
  rewrite migrar_entidad_eq.
  destruct (pg _) as [[|fila datos]|err]; try reflexivity.
  destruct (convertir_todas _ _) as [regs|err]; [|reflexivity].
  destruct (consulta_nodos e) as [c|err]; [|reflexivity].
  simpl. rewrite consultas_sql_app.
  rewrite (proj1 (aviso_debug_proyecciones _ _)).
  by rewrite (proj1 (execute_write_proyecciones _ _ _ _)).
Qed.

Lemma consultas_sql_relacion (opc : opciones_t) (es : list entidad)
    (r : relacion) :
  consultas_sql (migrar_relacion pg neo4j_acepta opc es r).1
  = [r_consulta_sql r].
Proof.
  rewrite migrar_relacion_eq.
  destruct (pg _) as [[|fila datos]|err]; try reflexivity.
  destruct (convertir_todas _ _) as [regs|err]; [|reflexivity].
  destruct (consulta_relaciones es r) as [c|err]; [|reflexivity].
  simpl. rewrite consultas_sql_app.
  rewrite (proj1 (aviso_debug_proyecciones _ _)).
  by rewrite (proj1 (execute_write_proyecciones _ _ _ _)).
Qed.

Lemma escrituras_entidad (opc : opciones_t) (e : entidad) :
  escrituras (migrar_entidad pg neo4j_acepta opc e).1
    `sublist_of` [(CrearNodos, etiqueta_neo4j e)].
Proof.
  rewrite migrar_entidad_eq.
  destruct (pg _) as [[|fila datos]|err]; try apply sublist_nil_l.
  destruct (convertir_todas _ _) as [regs|err]; [|apply sublist_nil_l].
  destruct (consulta_nodos e) as [c|err]; [|apply sublist_nil_l].
  simpl. rewrite escrituras_app.
  rewrite (proj2 (aviso_debug_proyecciones _ _)).
  by rewrite (proj2 (execute_write_proyecciones _ _ _ _)).
Qed.

Lemma escrituras_relacion (opc : opciones_t) (es : list entidad)
    (r : relacion) :
  escrituras (migrar_relacion pg neo4j_acepta opc es r).1
    `sublist_of` [(CrearRelaciones, tipo_relacion r)].
Proof.
  rewrite migrar_relacion_eq.
  destruct (pg _) as [[|fila datos]|err]; try apply sublist_nil_l.
  destruct (convertir_todas _ _) as [regs|err]; [|apply sublist_nil_l].
  destruct (consulta_relaciones es r) as [c|err]; [|apply sublist_nil_l].
  simpl. rewrite escrituras_app.
  rewrite (proj2 (aviso_debug_proyecciones _ _)).
  by rewrite (proj2 (execute_write_proyecciones _ _ _ _)).
Qed.

End Proyecciones.

(** ** The automatic run, phase by phase *)

Section Automatica.

Variable pg : string -> resultado (list tupla).
Variable neo4j_acepta : string -> parametros -> bool.
Variable neo4j_total : string -> Z.

Local Abbreviation me := (migrar_entidad pg neo4j_acepta).
Local Abbreviation mr := (migrar_relacion pg neo4j_acepta).
Local Abbreviation pre := (preludio neo4j_acepta).
Local Abbreviation epi := (epilogo neo4j_acepta neo4j_total).
Local Abbreviation auto :=
  (ejecutar_migracion_automatica pg neo4j_acepta neo4j_total).

(** [ejecutar_migracion_automatica] with its sequencing unfolded. *)
Lemma automatica_eq (m : mapeo_migracion) :
  let opc := default sin_opciones (opciones m) in
  auto m =
  match pre opc with
  | (t0, Error e) => (t0, Error e)
  | (t0, Ok _) =>
      match entidades m with
      | None => (t0, Error (KeyError "entidades"))
      | Some es =>
          match para_cada (me opc) es with
          | (t1, Error e) => (t0 ++ t1, Error e)
          | (t1, Ok _) =>
              match relaciones m with
              | None => (t0 ++ t1 ++ [EvPrint MsgFase2],
                         Error (KeyError "relaciones"))
              | Some rs =>
                  match para_cada (mr opc es) rs with
                  | (t2, Error e) =>
                      (t0 ++ t1 ++ EvPrint MsgFase2 :: t2, Error e)
                  | (t2, Ok _) =>
                      (t0 ++ t1 ++ EvPrint MsgFase2 :: t2
                          ++ (epi opc es rs).1,
                       (epi opc es rs).2)
                  end
              end
          end
      end
  end.
Proof.
  intros opc. unfold ejecutar_migracion_automatica. fold opc.
  destruct (pre opc) as [t0 [[]|e]]; [|reflexivity].
  destruct (entidades m) as [es|]; simpl; [|by rewrite app_nil_r].
  destruct (para_cada (me opc) es) as [t1 [[]|e]]; simpl; [|done].
  destruct (relaciones m) as [rs|]; simpl; [|done].
  destruct (para_cada (mr opc es) rs) as [t2 [[]|e]]; simpl; [|done].
  by destruct (epi opc es rs).
Qed.

Lemma preludio_eq (opc : opciones_t) :
  pre opc =
  if limpiar_neo4j_antes opc then
    if neo4j_acepta consulta_limpiar ∅ then
      ([EvPrint MsgAutomatica; EvPrint MsgLimpiando;
        EvRun consulta_limpiar ∅; EvPrint MsgLimpiado; EvPrint MsgFase1],
       Ok tt)
    else
      ([EvPrint MsgAutomatica; EvPrint MsgLimpiando;
        EvRun consulta_limpiar ∅], Error ErrorNeo4j)
  else ([EvPrint MsgAutomatica; EvPrint MsgFase1], Ok tt).
Proof.
  unfold preludio, cuando, run, imprimir, bind, emitir.
  destruct (limpiar_neo4j_antes opc); [|reflexivity].
  by destruct (neo4j_acepta consulta_limpiar ∅).
Qed.

Lemma consultas_sql_entidades (opc : opciones_t) (es : list entidad) :
  consultas_sql (concat (map (fun e => (me opc e).1) es))
  = map e_consulta_sql es.
Proof.
  induction es as [|e es IH]; [reflexivity|]. simpl.
  by rewrite consultas_sql_app, consultas_sql_entidad, IH.
Qed.

Lemma consultas_sql_relaciones (opc : opciones_t) (es : list entidad)
    (rs : list relacion) :
  consultas_sql (concat (map (fun r => (mr opc es r).1) rs))
  = map r_consulta_sql rs.
Proof.
  induction rs as [|r rs IH]; [reflexivity|]. simpl.
  by rewrite consultas_sql_app, consultas_sql_relacion, IH.
Qed.

Lemma escrituras_entidades (opc : opciones_t) (es : list entidad) :
  escrituras (concat (map (fun e => (me opc e).1) es))
    `sublist_of` map (fun e => (CrearNodos, etiqueta_neo4j e)) es.
Proof.
  induction es as [|e es IH]; [reflexivity|]. simpl.
  rewrite escrituras_app.
  apply (sublist_app _ [_]); [apply escrituras_entidad|done].
Qed.

Lemma escrituras_relaciones (opc : opciones_t) (es : list entidad)
    (rs : list relacion) :
  escrituras (concat (map (fun r => (mr opc es r).1) rs))
    `sublist_of` map (fun r => (CrearRelaciones, tipo_relacion r)) rs.
Proof.
  induction rs as [|r rs IH]; [reflexivity|]. simpl.
  rewrite escrituras_app.
  apply (sublist_app _ [_]); [apply escrituras_relacion|done].
Qed.

(** The trace of a run: the prelude, the traces of a prefix of the
    entities, and, only once every entity has been processed, the
    announcement of phase 2, the traces of a prefix of the relationships
    and, only once every relationship has been processed, the
    epilogue. A run that returns has gone through all of them. *)
Lemma automatica_forma (m : mapeo_migracion) :
  let opc := default sin_opciones (opciones m) in
  let es := default [] (entidades m) in
  let rs := default [] (relaciones m) in
  exists n k resto final,
    (auto m).1
    = (pre opc).1 ++ concat (map (fun e => (me opc e).1) (take n es))
        ++ resto
    /\ (resto = [] \/
        take n es = es /\
        resto = EvPrint MsgFase2
                  :: concat (map (fun r => (mr opc es r).1) (take k rs))
                  ++ final /\
        (final = [] \/ take k rs = rs /\ final = (epi opc es rs).1))
    /\ (forall s, (auto m).2 = Ok s ->
          (auto m).1
          = (pre opc).1 ++ concat (map (fun e => (me opc e).1) es)
              ++ EvPrint MsgFase2
                   :: concat (map (fun r => (mr opc es r).1) rs)
                   ++ (epi opc es rs).1).
Proof.
  intros opc es rs. rewrite automatica_eq. fold opc.
  destruct (pre opc) as [t0 [[]|e]]; simpl.
  2:{ exists 0, 0, [], []. rewrite take_0. simpl. rewrite app_nil_r.
      split; [done|]. split; [by left|done]. }
  subst es rs. destruct (entidades m) as [es|]; simpl.
  2:{ exists 0, 0, [], []. simpl. rewrite app_nil_r.
      split; [done|]. split; [by left|done]. }
  destruct (para_cada_prefijo (me opc) es) as (n & Ht1 & Hn & _).
  destruct (para_cada (me opc) es) as [t1 [[]|e]]; simpl in *.
  2:{ exists n, 0, [], []. rewrite app_nil_r, Ht1.
      split; [done|]. split; [by left|done]. }
  specialize (Hn eq_refl). rewrite Hn in Ht1. subst t1.
  destruct (relaciones m) as [rs|]; simpl.
  2:{ exists n, 0, [EvPrint MsgFase2], []. rewrite Hn.
      split; [done|]. split; [|done]. right. split; [done|].
      split; [done|by left]. }
  destruct (para_cada_prefijo (mr opc es) rs) as (k & Ht2 & Hk & _).
  destruct (para_cada (mr opc es) rs) as [t2 [[]|e]]; simpl in *.
  - specialize (Hk eq_refl). rewrite Hk in Ht2. subst t2.
    exists n, k. eexists. exists (epi opc es rs).1. rewrite Hn, Hk.
    split; [reflexivity|]. split; [|done]. right. split; [done|].
    split; [done|by right].
  - exists n, k, (EvPrint MsgFase2 :: t2), []. rewrite Hn.
    split; [done|]. split; [|done].
    right. split; [done|]. split; [by rewrite app_nil_r, Ht2|by left].
Qed.

Lemma consultas_sql_print (m : mensaje) (t : traza) :
  consultas_sql (EvPrint m :: t) = consultas_sql t.
Proof. reflexivity. Qed.

Lemma escrituras_print (m : mensaje) (t : traza) :
  escrituras (EvPrint m :: t) = escrituras t.
Proof. reflexivity. Qed.

Lemma prefix_take_map {A B : Type} (g : A -> B) (n : nat) (l : list A) :
  map g (take n l) `prefix_of` map g l.
Proof.
  rewrite <- (take_drop n l) at 2. rewrite map_app. by apply prefix_app_r.
Qed.

Lemma sublist_take_map {A B : Type} (g : A -> B) (n : nat) (l : list A) :
  map g (take n l) `sublist_of` map g l.
Proof.
  rewrite <- (take_drop n l) at 2. rewrite map_app.
  by apply sublist_inserts_r.
Qed.

(** C6. In every automatic run the clearing, when configured, is the
    first access to either store; the source queries are issued in
    declaration order, those of all the entities before that of any
    relationship, a relationship being reached only after every entity;
    the write transactions follow the same order, node batches before
    relationship batches; and the trace is the concatenation of the
    traces of the units, one unit after the other. *)
Theorem fases_en_orden (m : mapeo_migracion) :
  let opc := default sin_opciones (opciones m) in
  let es := default [] (entidades m) in
  let rs := default [] (relaciones m) in
  let t := (auto m).1 in
  (limpiar_neo4j_antes opc = true ->
     exists t', t = EvPrint MsgAutomatica :: EvPrint MsgLimpiando
                      :: EvRun consulta_limpiar ∅ :: t')
  /\ consultas_sql t
       `prefix_of` map e_consulta_sql es ++ map r_consulta_sql rs
  /\ escrituras t
       `sublist_of` map (fun e => (CrearNodos, etiqueta_neo4j e)) es
                      ++ map (fun r => (CrearRelaciones, tipo_relacion r)) rs
  /\ (forall s, (auto m).2 = Ok s ->
        consultas_sql t = map e_consulta_sql es ++ map r_consulta_sql rs)
  /\ exists n k resto final,
       t = (pre opc).1 ++ concat (map (fun e => (me opc e).1) (take n es))
             ++ resto
       /\ (resto = [] \/
           take n es = es /\
           resto = EvPrint MsgFase2
                     :: concat (map (fun r => (mr opc es r).1) (take k rs))
                     ++ final /\
           (final = [] \/ take k rs = rs /\ final = (epi opc es rs).1)).
Proof.
  intros opc es rs t.
  destruct (automatica_forma m) as (n & k & resto & final & Ht & Hr & Hok).
  fold opc es rs t in Ht, Hr, Hok.
  pose proof (fuera_de_lote_proyecciones _
                (preludio_fuera_de_lote neo4j_acepta opc)) as [Hpc Hpe].
  pose proof (fuera_de_lote_proyecciones _
                (epilogo_fuera_de_lote neo4j_acepta neo4j_total opc es rs))
    as [Hec Hee].
  split; [|split; [|split; [|split]]].
  - intros Hl. rewrite Ht, preludio_eq, Hl.
    destruct (neo4j_acepta consulta_limpiar ∅); simpl; eauto.
  - rewrite Ht. destruct Hr as [->|(Hn & -> & Hf)].
    + rewrite app_nil_r, consultas_sql_app, Hpc, consultas_sql_entidades.
      simpl. apply prefix_app_r, prefix_take_map.
    + assert (consultas_sql final = []) as Hfc
        by (by destruct Hf as [->|[_ ->]]).
      rewrite Hn, !consultas_sql_app, consultas_sql_print,
        consultas_sql_app, Hpc, consultas_sql_entidades,
        consultas_sql_relaciones, Hfc, app_nil_r.
      simpl. apply prefix_app, prefix_take_map.
  - rewrite Ht. destruct Hr as [->|(Hn & -> & Hf)].
    + rewrite app_nil_r, escrituras_app, Hpe. simpl.
      apply sublist_inserts_r. etrans; [apply escrituras_entidades|].
      apply sublist_take_map.
    + assert (escrituras final = []) as Hfe
        by (by destruct Hf as [->|[_ ->]]).
      rewrite Hn, !escrituras_app, escrituras_print, escrituras_app,
        Hpe, Hfe, app_nil_r.
      simpl. apply sublist_app; [apply escrituras_entidades|].
      etrans; [apply escrituras_relaciones|]. apply sublist_take_map.
  - intros s Hs. subst t. rewrite (Hok s Hs).
    by rewrite !consultas_sql_app, consultas_sql_print,
      consultas_sql_app, Hpc, consultas_sql_entidades,
      consultas_sql_relaciones, Hec, app_nil_r.
  - exists n, k, resto, final. by split.
Qed.

End Automatica.

(** ** Empty results *)

(** C7. An entity or a relationship whose source query returns no row
    does not fail: its trace is its announcement, its query and the line
    saying there is no data, with no statement sent to the graph store,
    and the loop goes on with the units that follow. *)
Theorem sin_filas_se_omite (pg : string -> resultado (list tupla))
    (neo4j_acepta : string -> parametros -> bool) (opc : opciones_t) :
  (forall (e : entidad) (resto : list entidad),
     pg (e_consulta_sql e) = Ok [] ->
     let f := migrar_entidad pg neo4j_acepta opc in
     f e = ([EvPrint (MsgMigrando (e_nombre e) (etiqueta_neo4j e));
             EvSQL (e_consulta_sql e);
             EvPrint (MsgSinDatos (e_nombre e))], Ok tt)
     /\ sentencias (f e).1 = []
     /\ para_cada f (e :: resto)
        = ((f e).1 ++ (para_cada f resto).1, (para_cada f resto).2)) /\
  (forall (es : list entidad) (r : relacion) (resto : list relacion),
     pg (r_consulta_sql r) = Ok [] ->
     let f := migrar_relacion pg neo4j_acepta opc es in
     f r = ([EvPrint (MsgCreandoRelaciones (tipo_relacion r));
             EvSQL (r_consulta_sql r);
             EvPrint (MsgSinRelaciones (r_nombre r))], Ok tt)
     /\ sentencias (f r).1 = []
     /\ para_cada f (r :: resto)
        = ((f r).1 ++ (para_cada f resto).1, (para_cada f resto).2)).
Proof.
  split.
  - intros e resto Hpg f.
    assert (Hf : f e = ([EvPrint (MsgMigrando (e_nombre e) (etiqueta_neo4j e));
                         EvSQL (e_consulta_sql e);
                         EvPrint (MsgSinDatos (e_nombre e))], Ok tt)).
    { unfold f. by rewrite migrar_entidad_eq, Hpg. }
    split; [done|]. split; [by rewrite Hf|].
    apply para_cada_cons_ok. unfold termina_bien. by rewrite Hf.
  - intros es r resto Hpg f.
    assert (Hf : f r = ([EvPrint (MsgCreandoRelaciones (tipo_relacion r));
                         EvSQL (r_consulta_sql r);
                         EvPrint (MsgSinRelaciones (r_nombre r))], Ok tt)).
    { unfold f. by rewrite migrar_relacion_eq, Hpg. }
    split; [done|]. split; [by rewrite Hf|].
    apply para_cada_cons_ok. unfold termina_bien. by rewrite Hf.
Qed.

Lemma sin_filas_se_omite_witness :
  migrar_entidad pg_vacio neo4j_acepta_todo sin_opciones entidad_usuarios
  = ([EvPrint (MsgMigrando "usuarios" "Persona");
      EvSQL "SELECT id,name,email FROM users";
      EvPrint (MsgSinDatos "usuarios")], Ok tt)
  /\ migrar_relacion pg_vacio neo4j_acepta_todo sin_opciones
       [entidad_usuarios] relacion_amistad
     = ([EvPrint (MsgCreandoRelaciones "FRIEND_OF");
         EvSQL "SELECT uid1,uid2 FROM friendships WHERE status='ACCEPTED'";
         EvPrint (MsgSinRelaciones "amistades")], Ok tt).
Proof.
  split.
  - apply (proj1 (sin_filas_se_omite pg_vacio neo4j_acepta_todo sin_opciones)
             entidad_usuarios []).
    reflexivity.
  - apply (proj2 (sin_filas_se_omite pg_vacio neo4j_acepta_todo sin_opciones)
             [entidad_usuarios] relacion_amistad []).
    reflexivity.
Defined.

(** ** Statement text and row data *)

Lemma sentencias_elem (t : traza) (c : string) :
  c ∈ sentencias t <->
  (exists p, EvRun c p ∈ t)
  \/ (exists f regs et, EvExecuteWrite f c regs et ∈ t).
Proof.
  unfold sentencias. rewrite list_elem_of_omap. split.
  - intros (ev & Hev & Hc). destruct ev; try done; injection Hc as ->; eauto.
  - intros [(p & H)|(f & regs & et & H)]; eexists; (split; [exact H|done]).
Qed.

(** C5. The text of every statement sent for an entity is the one
    generated from the entity's mapping alone, and the text of every
    statement sent for a relationship is the one generated from the
    relationship and the declared entities alone: whatever the source
    returns, two runs send the same text. The values of a row reach the
    store only as the parameters of a [run], which are the record
    converted from that row. *)
Theorem sentencias_independientes_de_los_datos :
  (forall pg neo4j_acepta opc (e : entidad) (c : string),
     c ∈ sentencias (migrar_entidad pg neo4j_acepta opc e).1 ->
     consulta_nodos e = Ok c) /\
  (forall pg neo4j_acepta opc (es : list entidad) (r : relacion) (c : string),
     c ∈ sentencias (migrar_relacion pg neo4j_acepta opc es r).1 ->
     consulta_relaciones es r = Ok c) /\
  (forall pg1 neo1 opc1 pg2 neo2 opc2 (e : entidad) (c1 c2 : string),
     c1 ∈ sentencias (migrar_entidad pg1 neo1 opc1 e).1 ->
     c2 ∈ sentencias (migrar_entidad pg2 neo2 opc2 e).1 ->
     c1 = c2) /\
  (forall pg1 neo1 opc1 pg2 neo2 opc2 (es : list entidad) (r : relacion)
          (c1 c2 : string),
     c1 ∈ sentencias (migrar_relacion pg1 neo1 opc1 es r).1 ->
     c2 ∈ sentencias (migrar_relacion pg2 neo2 opc2 es r).1 ->
     c1 = c2) /\
  (forall pg neo4j_acepta opc (e : entidad) (c : string) (p : parametros),
     EvRun c p ∈ (migrar_entidad pg neo4j_acepta opc e).1 ->
     exists datos fila,
       pg (e_consulta_sql e) = Ok datos /\ fila ∈ datos /\
       convertir_fila (mapeo_campos e) fila = Ok p) /\
  (forall pg neo4j_acepta opc (es : list entidad) (r : relacion) (c : string)
          (p : parametros),
     EvRun c p ∈ (migrar_relacion pg neo4j_acepta opc es r).1 ->
     exists datos fila,
       pg (r_consulta_sql r) = Ok datos /\ fila ∈ datos /\
       convertir_fila_relacion fila = Ok p).
Proof.
  assert (He : forall pg neo4j_acepta opc (e : entidad) (c : string),
             c ∈ sentencias (migrar_entidad pg neo4j_acepta opc e).1 ->
             consulta_nodos e = Ok c).
  { intros pg neo opc e c Hc. apply sentencias_elem in Hc.
    destruct Hc as [(p & H)|(f & regs & et & H)];
      apply migrar_entidad_eventos in H
        as [(m & ?)|[?|(datos & regs' & c' & _ & _ & Hc' & [?|(q & _ & ?)])]];
      congruence. }
  assert (Hr : forall pg neo4j_acepta opc (es : list entidad) (r : relacion)
                      (c : string),
             c ∈ sentencias (migrar_relacion pg neo4j_acepta opc es r).1 ->
             consulta_relaciones es r = Ok c).
  { intros pg neo opc es r c Hc. apply sentencias_elem in Hc.
    destruct Hc as [(p & H)|(f & regs & et & H)];
      apply migrar_relacion_eventos in H
        as [(m & ?)|[?|(datos & regs' & c' & _ & _ & Hc' & [?|(q & _ & ?)])]];
      congruence. }
  split; [exact He|]. split; [exact Hr|]. split; [|split; [|split]].
  - intros pg1 neo1 opc1 pg2 neo2 opc2 e c1 c2 H1 H2.
    apply He in H1, H2. congruence.
  - intros pg1 neo1 opc1 pg2 neo2 opc2 es r c1 c2 H1 H2.
    apply Hr in H1, H2. congruence.
  - intros pg neo opc e c p H.
    apply migrar_entidad_eventos in H
      as [(m & ?)|[?|(datos & regs & c' & Hpg & Hconv & _
                       & [?|(q & Hq & Heq)])]];
      try done.
    injection Heq as -> ->.
    destruct (convertir_todas_elem _ _ _ _ Hconv Hq) as (fila & Hfila & Hp).
    by exists datos, fila.
  - intros pg neo opc es r c p H.
    apply migrar_relacion_eventos in H
      as [(m & ?)|[?|(datos & regs & c' & Hpg & Hconv & _
                       & [?|(q & Hq & Heq)])]];
      try done.
    injection Heq as -> ->.
    destruct (convertir_todas_elem _ _ _ _ Hconv Hq) as (fila & Hfila & Hp).
    by exists datos, fila.
Qed.

Lemma sentencias_independientes_de_los_datos_witness :
  consulta_nodos entidad_usuarios = Ok sentencia_usuarios
  /\ consulta_relaciones [entidad_usuarios] relacion_amistad
     = Ok sentencia_amistad
  /\ sentencia_usuarios = sentencia_usuarios
  /\ sentencia_amistad = sentencia_amistad
  /\ (exists datos fila,
        pg_ejemplo (e_consulta_sql entidad_usuarios) = Ok datos
        /\ fila ∈ datos
        /\ convertir_fila (mapeo_campos entidad_usuarios) fila
           = Ok registro_usuario)
  /\ (exists datos fila,
        pg_ejemplo (r_consulta_sql relacion_amistad) = Ok datos
        /\ fila ∈ datos
        /\ convertir_fila_relacion fila = Ok registro_amistad).
Proof.
  destruct sentencias_independientes_de_los_datos
    as (He & Hr & He2 & Hr2 & Hpe & Hpr).
  assert (Hu : sentencia_usuarios
               ∈ sentencias (migrar_entidad pg_ejemplo neo4j_acepta_todo
                               sin_opciones entidad_usuarios).1)
    by (vm_compute; apply list_elem_of_here).
  assert (Hu' : sentencia_usuarios
                ∈ sentencias (migrar_entidad pg_vacio_salvo_usuarios
                                neo4j_acepta_todo sin_opciones
                                entidad_usuarios).1)
    by (vm_compute; apply list_elem_of_here).
  assert (Ha : sentencia_amistad
               ∈ sentencias (migrar_relacion pg_ejemplo neo4j_acepta_todo
                               sin_opciones [entidad_usuarios]
                               relacion_amistad).1)
    by (vm_compute; apply list_elem_of_here).
  split; [exact (He _ _ _ _ _ Hu)|].
  split; [exact (Hr _ _ _ _ _ _ Ha)|].
  split; [exact (He2 _ _ _ _ _ _ _ _ _ Hu Hu')|].
  split; [exact (Hr2 _ _ _ _ _ _ _ _ _ _ Ha Ha)|].
  split.
  - apply (Hpe pg_ejemplo neo4j_acepta_todo sin_opciones entidad_usuarios
             sentencia_usuarios registro_usuario).
    vm_compute. do 3 apply list_elem_of_further. apply list_elem_of_here.
  - apply (Hpr pg_ejemplo neo4j_acepta_todo sin_opciones [entidad_usuarios]
             relacion_amistad sentencia_amistad registro_amistad).
    vm_compute. do 3 apply list_elem_of_further. apply list_elem_of_here.
Defined.

(** ** Failures inside the two loops *)

Lemma next_entidad_no_declarada (es : list entidad) (etiqueta : string) :
  etiqueta_declarada es etiqueta = false ->
  next_entidad es etiqueta = Error StopIteration.
Proof.
  unfold etiqueta_declarada. induction es as [|e es IH]; simpl; [done|].
  intros H. apply orb_false_iff in H as [He Hes].
  apply bool_decide_eq_false in He. rewrite decide_False by done. auto.
Qed.

Lemma next_entidad_declarada (es : list entidad) (etiqueta : string) :
  etiqueta_declarada es etiqueta = true ->
  exists e, next_entidad es etiqueta = Ok e.
Proof.
  unfold etiqueta_declarada. induction es as [|e es IH]; simpl; [done|].
  intros H. destruct (decide (etiqueta_neo4j e = etiqueta)) as [|Hne];
    [by exists e|].
  apply IH. by rewrite bool_decide_eq_false_2 in H.
Qed.

Lemma consulta_relaciones_no_declarada (es : list entidad) (r : relacion) :
  etiqueta_declarada es (nodo_origen r) = false
  \/ etiqueta_declarada es (nodo_destino r) = false ->
  consulta_relaciones es r = Error StopIteration.
Proof.
  unfold consulta_relaciones. intros Hnd.
  destruct (etiqueta_declarada es (nodo_origen r)) eqn:Ho.
  - destruct Hnd as [H|H]; [done|].
    destruct (next_entidad_declarada _ _ Ho) as [e ->].
    by rewrite (next_entidad_no_declarada _ _ H).
  - by rewrite (next_entidad_no_declarada _ _ Ho).
Qed.

Lemma convertir_todas_mapeo_vacio (datos : list tupla) :
  convertir_todas (convertir_fila []) datos = Ok (map (fun _ => ∅) datos).
Proof.
  induction datos as [|fila datos IH]; simpl; [done|]. by rewrite IH.
Qed.

Section Fallos.

Variable pg : string -> resultado (list tupla).
Variable neo4j_acepta : string -> parametros -> bool.
Variable neo4j_total : string -> Z.

Local Abbreviation me := (migrar_entidad pg neo4j_acepta).
Local Abbreviation mr := (migrar_relacion pg neo4j_acepta).
Local Abbreviation pre := (preludio neo4j_acepta).
Local Abbreviation auto :=
  (ejecutar_migracion_automatica pg neo4j_acepta neo4j_total).

(** An exception in the body of the entity loop ends the run there. *)
Lemma automatica_falla_entidad (m : mapeo_migracion)
    (es1 : list entidad) (e : entidad) (es2 : list entidad)
    (err : excepcion) :
  let opc := default sin_opciones (opciones m) in
  entidades m = Some (es1 ++ e :: es2) ->
  (pre opc).2 = Ok tt ->
  Forall (termina_bien (me opc)) es1 ->
  (me opc e).2 = Error err ->
  auto m = ((pre opc).1 ++ concat (map (fun x => (me opc x).1) es1)
              ++ (me opc e).1, Error err).
Proof.
  intros opc Hes Hpre Hes1 He. rewrite automatica_eq. fold opc.
  destruct (pre opc) as [t0 r0]. simpl in Hpre. subst r0.
  by rewrite Hes, (para_cada_falla _ _ _ _ err Hes1 He).
Qed.

(** An exception in the body of the relationship loop ends the run
    there, every entity having been migrated before. *)
Lemma automatica_falla_relacion (m : mapeo_migracion) (es : list entidad)
    (rs1 : list relacion) (r : relacion) (rs2 : list relacion)
    (err : excepcion) :
  let opc := default sin_opciones (opciones m) in
  entidades m = Some es ->
  relaciones m = Some (rs1 ++ r :: rs2) ->
  (pre opc).2 = Ok tt ->
  Forall (termina_bien (me opc)) es ->
  Forall (termina_bien (mr opc es)) rs1 ->
  (mr opc es r).2 = Error err ->
  auto m = ((pre opc).1 ++ concat (map (fun x => (me opc x).1) es)
              ++ EvPrint MsgFase2
                   :: concat (map (fun x => (mr opc es x).1) rs1)
                   ++ (mr opc es r).1, Error err).
Proof.
  intros opc Hes Hrs Hpre Hes1 Hrs1 Hr. rewrite automatica_eq. fold opc.
  destruct (pre opc) as [t0 r0]. simpl in Hpre. subst r0.
  by rewrite Hes, (para_cada_ok _ _ Hes1), Hrs,
    (para_cada_falla _ _ _ _ err Hrs1 Hr).
Qed.

(** C3, as amended. When the source query of an entity raises, the
    exception leaves the run at once: the run ends with that exception,
    its last event being the failed query, after the entities declared
    before it; no entity declared after it and no relationship is
    queried. *)
Theorem consulta_fallida_aborta (m : mapeo_migracion)
    (es1 : list entidad) (e : entidad) (es2 : list entidad)
    (err : excepcion) :
  let opc := default sin_opciones (opciones m) in
  entidades m = Some (es1 ++ e :: es2) ->
  (pre opc).2 = Ok tt ->
  Forall (termina_bien (me opc)) es1 ->
  pg (e_consulta_sql e) = Error err ->
  auto m = ((pre opc).1 ++ concat (map (fun x => (me opc x).1) es1)
              ++ [EvPrint (MsgMigrando (e_nombre e) (etiqueta_neo4j e));
                  EvSQL (e_consulta_sql e)], Error err)
  /\ consultas_sql (auto m).1
     = map e_consulta_sql es1 ++ [e_consulta_sql e].
Proof.
  intros opc Hes Hpre Hes1 Hpg.
  assert (He : me opc e = (cabecera_entidad e, Error err))
    by (by rewrite migrar_entidad_eq, Hpg).
  assert (Hrun := automatica_falla_entidad m es1 e es2 err Hes Hpre Hes1).
  fold opc in Hrun. rewrite He in Hrun. specialize (Hrun eq_refl).
  split; [exact Hrun|]. rewrite Hrun. cbn [fst].
  rewrite !consultas_sql_app, consultas_sql_entidades.
  by rewrite (proj1 (fuera_de_lote_proyecciones _
                       (preludio_fuera_de_lote neo4j_acepta opc))).
Qed.

End Fallos.

(** ** Worked runs *)

Lemma fases_en_orden_witness :
  let t := (ejecutar_migracion_automatica pg_ejemplo neo4j_acepta_todo
              neo4j_total_cero mapeo_ejemplo).1 in
  (exists t', t = EvPrint MsgAutomatica :: EvPrint MsgLimpiando
                   :: EvRun consulta_limpiar ∅ :: t')
  /\ consultas_sql t
     = map e_consulta_sql [entidad_usuarios]
         ++ map r_consulta_sql [relacion_amistad].
Proof.
  destruct (fases_en_orden pg_ejemplo neo4j_acepta_todo neo4j_total_cero
              mapeo_ejemplo) as (Hlimpia & _ & _ & Hok & _).
  split.
  - apply Hlimpia. reflexivity.
  - eapply Hok. vm_compute. reflexivity.
Defined.

Lemma consulta_fallida_aborta_witness :
  consultas_sql
    (ejecutar_migracion_automatica pg_falla_a neo4j_acepta_todo
       neo4j_total_cero mapeo_tres).1
  = map e_consulta_sql [entidad_usuarios] ++ [e_consulta_sql entidad_a].
Proof.
  apply (consulta_fallida_aborta pg_falla_a neo4j_acepta_todo
           neo4j_total_cero mapeo_tres [entidad_usuarios] entidad_a
           [entidad_b] ErrorPostgres).
  - reflexivity.
  - reflexivity.
  - constructor; [|constructor]. vm_compute. reflexivity.
  - reflexivity.
Defined.

(** C3 as stated fails: with three entities declared and the query of the
    second one raising, the run ends with that exception and the third
    entity is never queried. *)
Lemma consulta_fallida_no_continua :
  let r := ejecutar_migracion_automatica pg_falla_a neo4j_acepta_todo
             neo4j_total_cero mapeo_tres in
  entidades mapeo_tres = Some [entidad_usuarios; entidad_a; entidad_b]
  /\ pg_falla_a (e_consulta_sql entidad_a) = Error ErrorPostgres
  /\ r.2 = Error ErrorPostgres
  /\ consultas_sql r.1
     = [e_consulta_sql entidad_usuarios; e_consulta_sql entidad_a]
  /\ EvSQL (e_consulta_sql entidad_b) ∉ r.1.
Proof.
  repeat split; try (vm_compute; reflexivity).
  intros Hin.
  assert (Hq : e_consulta_sql entidad_b
               ∈ consultas_sql
                   (ejecutar_migracion_automatica pg_falla_a
                      neo4j_acepta_todo neo4j_total_cero mapeo_tres).1).
  { unfold consultas_sql. apply list_elem_of_omap. eexists. by split. }
  revert Hq. vm_compute. intros Hq.
  repeat (apply elem_of_cons in Hq as [Hq|Hq]; [discriminate|]).
  by apply elem_of_nil in Hq.
Qed.

(** C4 as stated fails: a mapping with an empty field map is not rejected
    when loaded. Run on a source with rows, it clears the graph, queries
    and writes the entity declared first, queries the invalid entity and
    only then raises [IndexError]; run on an empty source, it returns as
    a successful migration. *)
Lemma mapeo_invalido_no_se_rechaza :
  let r := ejecutar_migracion_automatica pg_con_vacia neo4j_acepta_todo
             neo4j_total_cero mapeo_sin_campos in
  mapeo_valido [entidad_usuarios; entidad_sin_campos] [] = false
  /\ r.2 = Error IndexError
  /\ head (sentencias r.1) = Some consulta_limpiar
  /\ consultas_sql r.1
     = [e_consulta_sql entidad_usuarios; e_consulta_sql entidad_sin_campos]
  /\ escrituras r.1 = [(CrearNodos, "Persona")]
  /\ (ejecutar_migracion_automatica pg_vacio neo4j_acepta_todo
        neo4j_total_cero mapeo_sin_campos).2
     = Ok "Migración automática completada exitosamente".
Proof. repeat split; vm_compute; reflexivity. Qed.

(** ** Mode selection and the manual mode *)

Lemma avance_bind {A B : Type} (m : M A) (f : A -> M B)
    (qs1 qs2 : list string) (ws1 ws2 : list (funcion_tx * string)) :
  avance m qs1 ws1 -> (forall a, avance (f a) qs2 ws2) ->
  avance (bind m f) (qs1 ++ qs2) (ws1 ++ ws2).
Proof.
  unfold avance. intros (Hq & Hw & Hok) Hf.
  destruct m as [t [a|e]]; cbn [fst snd bind] in *.
  - destruct (Hok a eq_refl) as [Hq1 Hw1].
    destruct (Hf a) as (Hq' & Hw' & Hok').
    destruct (f a) as [t' r']. cbn [fst snd] in *.
    rewrite consultas_sql_app, escrituras_app, Hq1, Hw1.
    split; [by apply prefix_app|]. split; [by apply prefix_app|].
    intros b Hb. by destruct (Hok' b Hb) as [-> ->].
  - split; [by apply prefix_app_r|]. split; [by apply prefix_app_r|done].
Qed.

Lemma avance_imprimir (msg : mensaje) : avance (imprimir msg) [] [].
Proof. by repeat split. Qed.

Lemma avance_elevar {A : Type} (r : resultado A) : avance (elevar r) [] [].
Proof. by repeat split. Qed.

Lemma avance_ret {A : Type} (a : A) : avance (ret a) [] [].
Proof. by repeat split. Qed.

Lemma avance_obtener (pg : string -> resultado (list tupla)) (sql : string) :
  avance (obtener_datos_postgresql pg sql) [sql] [].
Proof.
  unfold avance, obtener_datos_postgresql, elevar, emitir, bind. simpl.
  by destruct (pg sql).
Qed.

Lemma avance_execute_write (neo4j_acepta : string -> parametros -> bool)
    (f : funcion_tx) (c : string) (regs : list parametros) (et : string) :
  avance (execute_write neo4j_acepta f c regs et) [] [(f, et)].
Proof.
  destruct (execute_write_proyecciones neo4j_acepta f c regs et) as [Hc He].
  unfold avance. by rewrite Hc, He.
Qed.

(** Mode selection follows the truth value of the loaded object: without
    a mapping file the legacy mode is selected; with a mapping file, the
    declarative mode is selected when the loaded object has at least one
    key, and the legacy mode otherwise. The legacy mode issues its four
    source queries and opens its four write transactions in a fixed order
    (person nodes, post nodes, friendships, authorship), all four when it
    returns. *)
Theorem modo_segun_mapeo :
  seleccionar_modo None = ModoManual /\
  (forall m, verdadero m = true ->
     seleccionar_modo (Some m) = ModoAutomatico m) /\
  (forall m, verdadero m = false -> seleccionar_modo (Some m) = ModoManual) /\
  (forall pg neo4j_acepta,
     avance (ejecutar_migracion_manual pg neo4j_acepta)
       [sql_usuarios; sql_publicaciones; sql_amistades;
        sql_publicaciones_autor]
       [(CrearNodos, "Persona"); (CrearNodos, "Post");
        (CrearRelaciones, "AMIGO_DE"); (CrearRelaciones, "PUBLICO")]).
Proof.
  split; [reflexivity|]. split; [|split].
  - intros m Hm. simpl. by rewrite Hm.
  - intros m Hm. simpl. by rewrite Hm.
  - intros pg neo. unfold ejecutar_migracion_manual.
    repeat first
      [ apply avance_ret
      | apply (avance_bind _ _ [] _ [] _); [apply avance_imprimir|intros _]
      | apply (avance_bind _ _ [_] _ [] _); [apply avance_obtener|intros ?]
      | apply (avance_bind _ _ [] _ [] _); [apply avance_elevar|intros ?]
      | apply (avance_bind _ _ [] _ [_] _);
        [apply avance_execute_write|intros _] ].
Qed.

Lemma modo_segun_mapeo_witness :
  seleccionar_modo (Some mapeo_ejemplo) = ModoAutomatico mapeo_ejemplo
  /\ seleccionar_modo (Some mapeo_sin_claves) = ModoManual.
Proof.
  split.
  - apply (proj1 (proj2 modo_segun_mapeo) mapeo_ejemplo). reflexivity.
  - apply (proj1 (proj2 (proj2 modo_segun_mapeo)) mapeo_sin_claves).
    reflexivity.
Defined.

(** C8 at the failing input: the mapping file is present and holds the
    empty object. It is loaded without the warning of a missing file,
    and yet [if MAPEO_MIGRACION:] takes the legacy branch: the run is the
    one of a missing file, with the four hard-coded queries, where the
    docstring of [ejecutar_migracion] (lines 146-148) promises the
    automatic mode whenever the file exists. *)
Theorem mapeo_presente_modo_manual :
  let r := ejecutar_migracion pg_ejemplo neo4j_acepta_todo neo4j_total_cero
             (Some mapeo_sin_claves) in
  cargar_mapeo (Some mapeo_sin_claves) = []
  /\ seleccionar_modo (Some mapeo_sin_claves) = ModoManual
  /\ seleccionar_modo (Some mapeo_sin_claves)
     <> ModoAutomatico mapeo_sin_claves
  /\ r = ejecutar_migracion pg_ejemplo neo4j_acepta_todo neo4j_total_cero
           None
  /\ take 2 r.1 = [EvPrint MsgInicio; EvPrint MsgManual]
  /\ consultas_sql r.1
     = [sql_usuarios; sql_publicaciones; sql_amistades;
        sql_publicaciones_autor]
  /\ r.2 = Ok "Migración completada exitosamente".
Proof.
  cbv zeta. split; [reflexivity|]. split; [reflexivity|].
  split; [discriminate|]. split; [reflexivity|].
  split; [reflexivity|]. split; vm_compute; reflexivity.
Qed.

(** ** The exit status *)

(** C9 at the failing input: both connections succeed, no mapping file,
    every source query refused. The migration raises, the console branch
    prints the error, closes the connections and the process ends with
    status 0. *)
Lemma principal_fallo_sale_con_cero :
  (ejecutar_migracion pg_caido neo4j_acepta_todo neo4j_total_cero None).2
  = Error ErrorPostgres
  /\ principal pg_caido neo4j_acepta_todo neo4j_total_cero true true None
       false
     = ([EvPrint MsgMapeoNoEncontrado;
         EvConectarPostgres; EvConectarNeo4j;
         EvPrint MsgInicio; EvPrint MsgManual; EvPrint MsgFaseUsuarios;
         EvSQL sql_usuarios;
         EvPrint (MsgErrorMigracion ErrorPostgres);
         EvCerrarPostgres; EvCerrarNeo4j; EvPrint MsgConexionesCerradas],
        0%Z)
  /\ (principal pg_caido neo4j_acepta_todo neo4j_total_cero false true None
        false).2 = 1%Z.
Proof. repeat split. Qed.

(** The exit status depends on the connections alone. *)
Lemma principal_codigo (pg : string -> resultado (list tupla))
    (neo4j_acepta : string -> parametros -> bool) (neo4j_total : string -> Z)
    (conecta_postgres conecta_neo4j : bool)
    (archivo : option mapeo_migracion) (borrar_al_iniciar : bool) :
  (principal pg neo4j_acepta neo4j_total conecta_postgres conecta_neo4j
     archivo borrar_al_iniciar).2
  = match (conectar neo4j_acepta conecta_postgres conecta_neo4j
             borrar_al_iniciar).2 with
    | Ok _ => 0%Z
    | Error _ => 1%Z
    end.
Proof.
  unfold principal. destruct (conectar _ _ _ _) as [t0 [[]|e]]; [|done].
  by destruct (ejecutar_migracion _ _ _ _) as [t1 [s|e]].
Qed.

(** * Further properties of the module *)

(** ** One write transaction *)

Lemma run_eq (neo4j_acepta : string -> parametros -> bool) (c : string)
    (p : parametros) :
  run neo4j_acepta c p
  = ([EvRun c p], if neo4j_acepta c p then Ok tt else Error ErrorNeo4j).
Proof. unfold run, bind, emitir. simpl. by destruct (neo4j_acepta c p). Qed.

Lemma concat_map_singleton {A B : Type} (g : A -> B) (l : list A) :
  concat (map (fun x => [g x]) l) = map g l.
Proof. induction l as [|x l IH]; simpl; [done|]. by rewrite IH. Qed.

Lemma trazas_run (neo4j_acepta : string -> parametros -> bool) (c : string)
    (l : list parametros) :
  map (fun p => (run neo4j_acepta c p).1) l = map (fun p => [EvRun c p]) l.
Proof. apply map_ext. intros p. by rewrite run_eq. Qed.

Lemma para_cada_run_ok (neo4j_acepta : string -> parametros -> bool)
    (c : string) (regs : list parametros) :
  Forall (fun p => neo4j_acepta c p = true) regs ->
  para_cada (run neo4j_acepta c) regs = (map (EvRun c) regs, Ok tt).
Proof.
  intros H. rewrite para_cada_ok.
  - by rewrite trazas_run, concat_map_singleton.
  - eapply Forall_impl; [exact H|]. intros p Hp. unfold termina_bien.
    by rewrite run_eq, Hp.
Qed.

Lemma para_cada_run_rechazo (neo4j_acepta : string -> parametros -> bool)
    (c : string) (l1 : list parametros) (p : parametros)
    (l2 : list parametros) :
  Forall (fun q => neo4j_acepta c q = true) l1 ->
  neo4j_acepta c p = false ->
  para_cada (run neo4j_acepta c) (l1 ++ p :: l2)
  = (map (EvRun c) (l1 ++ [p]), Error ErrorNeo4j).
Proof.
  intros H Hp. rewrite (para_cada_falla _ _ _ _ ErrorNeo4j).
  - by rewrite trazas_run, concat_map_singleton, map_app, run_eq.
  - eapply Forall_impl; [exact H|]. intros q Hq. unfold termina_bien.
    by rewrite run_eq, Hq.
  - by rewrite run_eq, Hp.
Qed.

Lemma execute_write_eq (neo4j_acepta : string -> parametros -> bool)
    (f : funcion_tx) (c : string) (regs : list parametros) (et : string) :
  execute_write neo4j_acepta f c regs et
  = match para_cada (run neo4j_acepta c) regs with
    | (t, Ok _) =>
        (EvExecuteWrite f c regs et :: t
           ++ [EvPrint (mensaje_lote f et (length regs))], Ok tt)
    | (t, Error e) => (EvExecuteWrite f c regs et :: t, Error e)
    end.
Proof.
  unfold execute_write, crear_nodos_neo4j, crear_relaciones_neo4j, imprimir,
    bind, emitir.
  destruct (para_cada (run neo4j_acepta c) regs) as [t [[]|e]];
    by destruct f.
Qed.

(** X1. A write transaction runs its statement once per record, in the
    order of the records, and stops at the first record the store
    rejects: when every record is accepted it ends with the line counting
    all the records; otherwise it raises right after the rejected record,
    the records behind it are never sent and no line is printed. *)
Theorem lote_hasta_el_primer_rechazo
    (neo4j_acepta : string -> parametros -> bool) (f : funcion_tx)
    (c : string) (et : string) :
  (forall regs : list parametros,
     Forall (fun p => neo4j_acepta c p = true) regs ->
     execute_write neo4j_acepta f c regs et
     = (EvExecuteWrite f c regs et :: map (EvRun c) regs
          ++ [EvPrint (mensaje_lote f et (length regs))], Ok tt)) /\
  (forall (l1 : list parametros) (p : parametros) (l2 : list parametros),
     Forall (fun q => neo4j_acepta c q = true) l1 ->
     neo4j_acepta c p = false ->
     execute_write neo4j_acepta f c (l1 ++ p :: l2) et
     = (EvExecuteWrite f c (l1 ++ p :: l2) et :: map (EvRun c) (l1 ++ [p]),
        Error ErrorNeo4j)).
Proof.
  split.
  - intros regs H. by rewrite execute_write_eq, para_cada_run_ok.
  - intros l1 p l2 H Hp.
    by rewrite execute_write_eq, para_cada_run_rechazo.
Qed.

(** ** Indexes and statistics *)

Lemma bind_res_ok {A B : Type} (m : M A) (f : A -> M B) (b : B) :
  (bind m f).2 = Ok b <-> exists a, m.2 = Ok a /\ (f a).2 = Ok b.
Proof.
  destruct m as [t [a|e]]; simpl.
  - destruct (f a) as [t' r] eqn:Hf. simpl. split.
    + intros ->. exists a. by rewrite Hf.
    + intros (a' & [= <-] & H). by rewrite Hf in H.
  - split; [done|]. by intros (a & H & _).
Qed.

Lemma para_cada_res_ok {A : Type} (f : A -> M unit) (l : list A) :
  (para_cada f l).2 = Ok tt <-> Forall (termina_bien f) l.
Proof.
  split.
  - intros H. destruct (para_cada_casos f l)
      as [Hl|(l1 & x & l2 & e & -> & Hl1 & Hx)]; [done|].
    by rewrite (para_cada_falla _ _ _ _ e Hl1 Hx) in H.
  - intros H. by rewrite para_cada_ok.
Qed.

Lemma indice_0_head {A : Type} (l : list A) :
  indice l 0 = match head l with Some x => Ok x | None => Error IndexError end.
Proof. by destruct l. Qed.

Lemma crear_indice_eq (neo4j_acepta : string -> parametros -> bool)
    (e : entidad) :
  crear_indice neo4j_acepta e
  = match campo_id e with
    | None => ([], Error IndexError)
    | Some id_campo =>
        let c := consulta_indice (etiqueta_neo4j e) id_campo in
        ([EvRun c ∅;
          EvPrint (if neo4j_acepta c ∅
                   then MsgIndiceCreado (etiqueta_neo4j e) id_campo
                   else MsgErrorIndice ErrorNeo4j)], Ok tt)
    end.
Proof.
  unfold crear_indice, campo_id, elevar, intentar, imprimir, bind, emitir.
  rewrite indice_0_head. destruct (head _) as [id_campo|]; [|done].
  rewrite run_eq. by destruct (neo4j_acepta _ _).
Qed.

Lemma campo_id_None (e : entidad) : campo_id e = None <-> mapeo_campos e = [].
Proof. unfold campo_id, valores. by destruct (mapeo_campos e). Qed.

Lemma crear_indice_bien (neo4j_acepta : string -> parametros -> bool)
    (e : entidad) :
  termina_bien (crear_indice neo4j_acepta) e <-> mapeo_campos e <> [].
Proof.
  unfold termina_bien. rewrite crear_indice_eq, <- campo_id_None.
  by destruct (campo_id e).
Qed.

Lemma sentencias_app (t1 t2 : traza) :
  sentencias (t1 ++ t2) = sentencias t1 ++ sentencias t2.
Proof. apply omap_app. Qed.

Lemma sentencias_indices (neo4j_acepta : string -> parametros -> bool)
    (es : list entidad) :
  sentencias (concat (map (fun e => (crear_indice neo4j_acepta e).1) es))
  = omap sentencia_indice es.
Proof.
  induction es as [|e es IH]; [done|]. simpl.
  rewrite sentencias_app, IH, crear_indice_eq.
  unfold sentencia_indice. by destruct (campo_id e).
Qed.

Lemma sentencia_indice_length (es : list entidad) :
  Forall (fun e => mapeo_campos e <> []) es ->
  length (omap sentencia_indice es) = length es.
Proof.
  induction 1 as [|e es He _ IH]; [done|].
  change (omap sentencia_indice (e :: es))
    with (match sentencia_indice e with
          | Some c => c :: omap sentencia_indice es
          | None => omap sentencia_indice es
          end).
  unfold sentencia_indice at 1.
  destruct (campo_id e) eqn:Hid; [simpl; by rewrite IH|].
  by apply campo_id_None in Hid.
Qed.

(** X2. The index loop never fails because the store refuses an index:
    when every entity has a field map that is not empty, it returns
    whatever the store answers, having sent one index statement per
    entity, in declaration order, on the entity's label and identity
    field. An entity with an empty field map raises [IndexError] there,
    once the entities declared before it have been indexed. *)
Theorem indices_no_fatales (neo4j_acepta : string -> parametros -> bool) :
  (forall es : list entidad,
     Forall (fun e => mapeo_campos e <> []) es ->
     let r := para_cada (crear_indice neo4j_acepta) es in
     r.2 = Ok tt
     /\ sentencias r.1 = omap sentencia_indice es
     /\ length (sentencias r.1) = length es) /\
  (forall (es1 : list entidad) (e : entidad) (es2 : list entidad),
     Forall (fun e => mapeo_campos e <> []) es1 ->
     mapeo_campos e = [] ->
     let r := para_cada (crear_indice neo4j_acepta) (es1 ++ e :: es2) in
     r.2 = Error IndexError
     /\ sentencias r.1 = omap sentencia_indice es1).
Proof.
  split.
  - intros es Hes r.
    assert (Hbien : Forall (termina_bien (crear_indice neo4j_acepta)) es).
    { eapply Forall_impl; [exact Hes|]. intros e. apply crear_indice_bien. }
    subst r. rewrite (para_cada_ok _ _ Hbien). cbn [fst snd].
    rewrite sentencias_indices. split; [done|]. split; [done|].
    by apply sentencia_indice_length.
  - intros es1 e es2 Hes1 He r.
    assert (Hbien : Forall (termina_bien (crear_indice neo4j_acepta)) es1).
    { eapply Forall_impl; [exact Hes1|]. intros x. apply crear_indice_bien. }
    assert (Hfalla : crear_indice neo4j_acepta e = ([], Error IndexError)).
    { rewrite crear_indice_eq. apply campo_id_None in He. by rewrite He. }
    subst r. rewrite (para_cada_falla _ _ _ _ IndexError Hbien)
      by (by rewrite Hfalla).
    cbn [fst snd]. rewrite Hfalla, app_nil_r. cbn [fst].
    by rewrite sentencias_indices.
Qed.

Lemma bind_res_ok_unit {B : Type} (m : M unit) (k : M B) (b : B) :
  (bind m (fun _ => k)).2 = Ok b <-> m.2 = Ok tt /\ k.2 = Ok b.
Proof.
  rewrite bind_res_ok. split.
  - by intros ([] & H1 & H2).
  - intros [H1 H2]. by exists tt.
Qed.

Lemma contar_nodos_bien (neo4j_acepta : string -> parametros -> bool)
    (neo4j_total : string -> Z) (e : entidad) :
  termina_bien (contar_nodos neo4j_acepta neo4j_total) e
  <-> neo4j_acepta (consulta_total_nodos (etiqueta_neo4j e)) ∅ = true.
Proof.
  unfold termina_bien, contar_nodos, imprimir, emitir. rewrite run_eq.
  by destruct (neo4j_acepta _ _).
Qed.

Lemma contar_relaciones_bien (neo4j_acepta : string -> parametros -> bool)
    (neo4j_total : string -> Z) (r : relacion) :
  termina_bien (contar_relaciones neo4j_acepta neo4j_total) r
  <-> neo4j_acepta (consulta_total_relaciones (tipo_relacion r)) ∅ = true.
Proof.
  unfold termina_bien, contar_relaciones, imprimir, emitir. rewrite run_eq.
  by destruct (neo4j_acepta _ _).
Qed.

(** X3. The closing phases of an automatic run return, with the message
    of a completed migration, exactly when every count statement is
    accepted by the store and, if indexes are requested, every entity has
    a field map that is not empty. Whether the store accepts the index
    statements plays no part, while one refused count makes the run
    raise. *)
Theorem epilogo_termina (neo4j_acepta : string -> parametros -> bool)
    (neo4j_total : string -> Z) (opc : opciones_t) (es : list entidad)
    (rs : list relacion) (s : string) :
  (epilogo neo4j_acepta neo4j_total opc es rs).2 = Ok s
  <-> s = "Migración automática completada exitosamente"
      /\ (crear_indices opc = true ->
          Forall (fun e => mapeo_campos e <> []) es)
      /\ Forall (fun e => neo4j_acepta
                            (consulta_total_nodos (etiqueta_neo4j e)) ∅
                          = true) es
      /\ Forall (fun r => neo4j_acepta
                            (consulta_total_relaciones (tipo_relacion r)) ∅
                          = true) rs.
Proof.
  unfold epilogo. rewrite !bind_res_ok_unit, !para_cada_res_ok.
  assert (Hi : (cuando (crear_indices opc)
                  (bind (imprimir MsgFase3)
                     (fun _ => para_cada (crear_indice neo4j_acepta) es))).2
               = Ok tt
               <-> (crear_indices opc = true ->
                    Forall (fun e => mapeo_campos e <> []) es)).
  { unfold cuando. destruct (crear_indices opc).
    - rewrite bind_res_ok_unit, para_cada_res_ok. split.
      + intros [_ H] _. eapply Forall_impl; [exact H|].
        intros e. apply crear_indice_bien.
      + intros H. split; [done|]. eapply Forall_impl; [exact (H eq_refl)|].
        intros e. apply crear_indice_bien.
    - by split. }
  rewrite Hi.
  assert (Hn : Forall (termina_bien (contar_nodos neo4j_acepta neo4j_total)) es
               <-> Forall (fun e => neo4j_acepta
                                      (consulta_total_nodos (etiqueta_neo4j e))
                                      ∅ = true) es).
  { apply Forall_iff. intros e. apply contar_nodos_bien. }
  assert (Hr : Forall (termina_bien
                         (contar_relaciones neo4j_acepta neo4j_total)) rs
               <-> Forall (fun r => neo4j_acepta
                                      (consulta_total_relaciones
                                         (tipo_relacion r)) ∅ = true) rs).
  { apply Forall_iff. intros r. apply contar_relaciones_bien. }
  rewrite Hn, Hr. simpl. split.
  - intros (H1 & _ & H2 & _ & H3 & _ & [= <-]). done.
  - intros (-> & H1 & H2 & H3). done.
Qed.

(** ** What is never deleted *)

Lemma consulta_indice_no_limpia (etiqueta id_campo : string) :
  consulta_indice etiqueta id_campo <> consulta_limpiar.
Proof. unfold consulta_indice, consulta_limpiar. intros H. cbv in H. discriminate H. Qed.

Lemma consulta_total_nodos_no_limpia (etiqueta : string) :
  consulta_total_nodos etiqueta <> consulta_limpiar.
Proof. intros H. cbv in H. discriminate H. Qed.

Lemma consulta_total_relaciones_no_limpia (tipo : string) :
  consulta_total_relaciones tipo <> consulta_limpiar.
Proof. intros H. cbv in H. discriminate H. Qed.

Lemma consulta_nodos_no_limpia (e : entidad) (c : string) :
  consulta_nodos e = Ok c -> c <> consulta_limpiar.
Proof.
  unfold consulta_nodos. destruct (indice _ 0); [|done].
  intros [= <-] H. cbv in H. discriminate H.
Qed.

Lemma consulta_relaciones_no_limpia (es : list entidad) (r : relacion)
    (c : string) :
  consulta_relaciones es r = Ok c -> c <> consulta_limpiar.
Proof.
  unfold consulta_relaciones.
  destruct (next_entidad es (nodo_origen r)); [|done].
  destruct (next_entidad es (nodo_destino r)); [|done].
  destruct (indice _ 0); [|done]. destruct (indice _ 0); [|done].
  intros [= <-] H. cbv in H. discriminate H.
Qed.

Lemma Forall_concat_map {A : Type} (P : evento -> Prop) (f : A -> traza)
    (l : list A) :
  (forall x, Forall P (f x)) -> Forall P (concat (map f l)).
Proof.
  intros Hf. induction l as [|x l IH]; simpl; [constructor|].
  apply Forall_app. by split.
Qed.

Lemma sentencias_Forall (P : string -> Prop) (t : traza) :
  Forall (fun ev => match ev with
                    | EvRun c _ | EvExecuteWrite _ c _ _ => P c
                    | _ => True
                    end) t ->
  forall c, c ∈ sentencias t -> P c.
Proof.
  intros Ht c Hc. apply sentencias_elem in Hc.
  rewrite Forall_forall in Ht.
  destruct Hc as [(p & H)|(f & regs & et & H)]; exact (Ht _ H).
Qed.

Section SinLimpiar.

Variable pg : string -> resultado (list tupla).
Variable neo4j_acepta : string -> parametros -> bool.
Variable neo4j_total : string -> Z.

Lemma migrar_entidad_sin_limpiar (opc : opciones_t) (e : entidad) :
  Forall sin_limpiar (migrar_entidad pg neo4j_acepta opc e).1.
Proof.
  apply Forall_forall. intros ev Hev.
  apply migrar_entidad_eventos in Hev
    as [(m & ->)|[->|(datos & regs & c & _ & _ & Hc & [->|(p & _ & ->)])]];
    simpl; try done; by apply (consulta_nodos_no_limpia e).
Qed.

Lemma migrar_relacion_sin_limpiar (opc : opciones_t) (es : list entidad)
    (r : relacion) :
  Forall sin_limpiar (migrar_relacion pg neo4j_acepta opc es r).1.
Proof.
  apply Forall_forall. intros ev Hev.
  apply migrar_relacion_eventos in Hev
    as [(m & ->)|[->|(datos & regs & c & _ & _ & Hc & [->|(p & _ & ->)])]];
    simpl; try done; by apply (consulta_relaciones_no_limpia es r).
Qed.

Lemma epilogo_sin_limpiar (opc : opciones_t) (es : list entidad)
    (rs : list relacion) :
  Forall sin_limpiar (epilogo neo4j_acepta neo4j_total opc es rs).1.
Proof.
  assert (Hrun : forall c, c <> consulta_limpiar ->
                   Forall sin_limpiar (run neo4j_acepta c ∅).1).
  { intros c Hc. rewrite run_eq. by repeat constructor. }
  assert (Himp : forall m, Forall sin_limpiar (imprimir m).1)
    by (intros m; by repeat constructor).
  assert (Hi : Forall sin_limpiar
                 (para_cada (crear_indice neo4j_acepta) es).1).
  { apply Forall_para_cada. intros e. rewrite crear_indice_eq.
    destruct (campo_id e); [|constructor]. repeat constructor.
    apply consulta_indice_no_limpia. }
  assert (Hn : Forall sin_limpiar
                 (para_cada (contar_nodos neo4j_acepta neo4j_total) es).1).
  { apply Forall_para_cada. intros e. unfold contar_nodos.
    apply Forall_bind; [|intros _; apply Himp].
    apply Hrun, consulta_total_nodos_no_limpia. }
  assert (Hr : Forall sin_limpiar
                 (para_cada (contar_relaciones neo4j_acepta neo4j_total)
                    rs).1).
  { apply Forall_para_cada. intros r. unfold contar_relaciones.
    apply Forall_bind; [|intros _; apply Himp].
    apply Hrun, consulta_total_relaciones_no_limpia. }
  unfold epilogo, cuando, ret.
  destruct (crear_indices opc);
    repeat first
      [ exact Hi | exact Hn | exact Hr | apply Himp | apply Forall_nil_2
      | apply Forall_bind; [|intros _] ].
Qed.

(** X4. Unless the option [limpiar_neo4j_antes] is set, an automatic run
    never sends the statement that deletes the whole graph, whatever the
    mapping, the source and the answers of the store. *)
Theorem sin_opcion_no_se_limpia (m : mapeo_migracion) :
  limpiar_neo4j_antes (default sin_opciones (opciones m)) = false ->
  consulta_limpiar
    ∉ sentencias
        (ejecutar_migracion_automatica pg neo4j_acepta neo4j_total m).1.
Proof.
  intros Hl Hin.
  refine (sentencias_Forall (fun c => c <> consulta_limpiar) _ _ _ Hin
            eq_refl).
  change (Forall sin_limpiar
            (ejecutar_migracion_automatica pg neo4j_acepta neo4j_total m).1).
  destruct (automatica_forma pg neo4j_acepta neo4j_total m)
    as (n & k & resto & final & -> & Hr & _).
  apply Forall_app. split.
  { rewrite preludio_eq, Hl. by repeat constructor. }
  apply Forall_app. split.
  { apply Forall_concat_map. intros e. apply migrar_entidad_sin_limpiar. }
  destruct Hr as [->|(_ & -> & Hf)]; [constructor|].
  constructor; [done|]. apply Forall_app. split.
  { apply Forall_concat_map. intros r. apply migrar_relacion_sin_limpiar. }
  destruct Hf as [->|[_ ->]]; [constructor|apply epilogo_sin_limpiar].
Qed.

End SinLimpiar.

(** ** The manual mode *)

Lemma execute_write_solo_sentencias
    (neo4j_acepta : string -> parametros -> bool) (cs : list string)
    (f : funcion_tx) (c : string) (regs : list parametros) (et : string) :
  c ∈ cs ->
  Forall (solo_sentencias cs) (execute_write neo4j_acepta f c regs et).1.
Proof.
  intros Hc.
  destruct (execute_write_forma neo4j_acepta f c regs et) as (t & -> & Ht).
  constructor; [done|]. eapply Forall_impl; [exact Ht|].
  by intros ev [(p & _ & ->)|(m & ->)].
Qed.

Lemma manual_solo_sentencias (pg : string -> resultado (list tupla))
    (neo4j_acepta : string -> parametros -> bool) :
  Forall (solo_sentencias sentencias_manuales)
    (ejecutar_migracion_manual pg neo4j_acepta).1.
Proof.
  unfold ejecutar_migracion_manual, imprimir, obtener_datos_postgresql.
  repeat first
    [ apply execute_write_solo_sentencias; unfold sentencias_manuales;
      rewrite !elem_of_cons; tauto
    | apply Forall_nil_2
    | apply Forall_bind; [|intros ?]
    | by repeat constructor ].
Qed.

(** X5. Whatever the source holds and the store answers, the manual mode
    sends no statement other than its four fixed ones; in particular it
    never deletes the graph, creates no index and counts nothing. *)
Theorem manual_solo_cuatro_sentencias (pg : string -> resultado (list tupla))
    (neo4j_acepta : string -> parametros -> bool) :
  (forall c : string,
     c ∈ sentencias (ejecutar_migracion_manual pg neo4j_acepta).1 ->
     c ∈ sentencias_manuales)
  /\ consulta_limpiar
       ∉ sentencias (ejecutar_migracion_manual pg neo4j_acepta).1.
Proof.
  assert (H : forall c : string,
            c ∈ sentencias (ejecutar_migracion_manual pg neo4j_acepta).1 ->
            c ∈ sentencias_manuales).
  { apply (sentencias_Forall (fun c => c ∈ sentencias_manuales)).
    apply manual_solo_sentencias. }
  split; [exact H|]. intros Hin. apply H in Hin.
  unfold sentencias_manuales in Hin.
  repeat (apply elem_of_cons in Hin as [Hin|Hin]; [by vm_compute in Hin|]).
  by apply elem_of_nil in Hin.
Qed.

(** ** More on the conversion of a row *)

Lemma llenar_registro_app (mapeo : dict) (fila extra : tupla)
    (cs : list string) :
  forall (i : nat) (r : parametros),
    i + length cs <= length fila ->
    llenar_registro mapeo (fila ++ extra) i cs r
    = llenar_registro mapeo fila i cs r.
Proof.
  induction cs as [|c cs IH]; simpl; intros i r Hlen; [done|].
  destruct (dict_get mapeo c) as [p|]; [|done].
  unfold indice. rewrite lookup_app_l by lia.
  destruct (fila !! i) as [v|]; [|done]. apply IH. lia.
Qed.

(** X6. The conversion of an entity row reads the columns at the
    positions of the field map and nothing else: columns beyond the last
    mapped position do not change the record. *)
Theorem convertir_fila_ignora_columnas_de_mas (mapeo : dict)
    (fila extra : tupla) :
  length mapeo <= length fila ->
  convertir_fila mapeo (fila ++ extra) = convertir_fila mapeo fila.
Proof.
  intros H. apply llenar_registro_app. unfold claves.
  rewrite length_map. simpl. lia.
Qed.

Lemma convertir_fila_ignora_columnas_de_mas_witness :
  convertir_fila mapeo_usuarios (fila_usuario ++ [VBool true; VNull])
  = convertir_fila mapeo_usuarios fila_usuario.
Proof.
  apply (convertir_fila_ignora_columnas_de_mas mapeo_usuarios fila_usuario).
  simpl. lia.
Defined.

Lemma elem_of_valores (ps : dict) (q : string) :
  q ∈ valores ps <-> exists j k, ps !! j = Some (k, q).
Proof.
  unfold valores. split.
  - intros H. apply list_elem_of_fmap in H as ([k q'] & -> & H).
    apply list_elem_of_lookup in H as [j Hj]. by exists j, k.
  - intros (j & k & Hj). apply list_elem_of_fmap. exists (k, q).
    split; [done|]. by apply list_elem_of_lookup_2 in Hj.
Qed.

(** The loop of [llenar_registro] without any assumption on the target
    names: for each name the last pair that carries it decides. *)
Lemma llenar_registro_ultimo (mapeo : dict) (fila : tupla) (ps : dict) :
  forall (i : nat) (r : parametros),
    (forall k p, (k, p) ∈ ps -> dict_get mapeo k = Some p) ->
    i + length ps <= length fila ->
    exists r',
      llenar_registro mapeo fila i (claves ps) r = Ok r' /\
      (forall q w, r' !! q = Some w <->
         (exists j k, ps !! j = Some (k, q) /\ fila !! (i + j) = Some w /\
                      forall j' k', j < j' -> ps !! j' <> Some (k', q))
         \/ (r !! q = Some w /\ q ∉ valores ps)).
Proof.
  induction ps as [|[k p] ps IH]; simpl; intros i r Hget Hlen.
  - exists r. split; [done|]. intros q w. split.
    + intros H. right. split; [done|]. apply not_elem_of_nil.
    + intros [(j & k & H & _)|[H _]]; [by rewrite lookup_nil in H|done].
  - rewrite (Hget k p) by (apply elem_of_cons; auto).
    destruct (lookup_lt_is_Some_2 fila i) as [v Hv]; [lia|].
    rewrite (indice_Some _ _ _ Hv).
    destruct (IH (S i) (<[p:=v]> r)) as (r' & Hrun & Hlook); [|lia|].
    { intros k' p' Hin. apply Hget. by apply elem_of_cons; right. }
    exists r'. split; [done|]. intros q w. rewrite Hlook. split.
    + intros [(j & k' & Hj & Hw & Hlast)|[Hr Hq]].
      * left. exists (S j), k'. split; [done|].
        split; [by rewrite <- Nat.add_succ_comm|].
        intros [|j'] k'' Hlt; [lia|]. apply Hlast. lia.
      * destruct (decide (p = q)) as [->|Hne].
        -- rewrite lookup_insert_eq in Hr. injection Hr as ->.
           left. exists 0, k. split; [done|].
           split; [by rewrite Nat.add_0_r|].
           intros [|j'] k'' Hlt; [lia|]. simpl. intros Hj'.
           apply Hq, elem_of_valores. eauto.
        -- rewrite lookup_insert_ne in Hr by done. right.
           split; [done|]. rewrite not_elem_of_cons. by split.
    + intros [(j & k' & Hj & Hw & Hlast)|[Hr Hq]].
      * destruct j as [|j]; simpl in Hj.
        -- injection Hj as -> ->. rewrite Nat.add_0_r in Hw. right.
           assert (v = w) as -> by congruence.
           split; [by rewrite lookup_insert_eq|].
           intros Hin. apply elem_of_valores in Hin as (j' & k'' & Hj').
           apply (Hlast (S j') k''); [lia|done].
        -- left. exists j, k'. split; [done|].
           split; [by rewrite Nat.add_succ_comm|].
           intros j' k'' Hlt. apply (Hlast (S j') k''). lia.
      * apply not_elem_of_cons in Hq as [Hne Hq]. right.
        split; [|done]. by rewrite lookup_insert_ne.
Qed.

Lemma convertir_fila_resultado (mapeo : dict) (fila : tupla) :
  NoDup (claves mapeo) ->
  (length mapeo <= length fila -> exists r, convertir_fila mapeo fila = Ok r)
  /\ (length fila < length mapeo ->
      convertir_fila mapeo fila = Error IndexError).
Proof.
  intros Hk.
  assert (Hget : forall k p, (k, p) ∈ mapeo -> dict_get mapeo k = Some p)
    by (intros k p; by apply dict_get_elem).
  split; intros Hlen.
  - destruct (llenar_registro_ultimo mapeo fila mapeo 0 ∅ Hget)
      as (r & Hr & _); [simpl; lia|]. by exists r.
  - apply llenar_registro_corta; [done|lia|simpl; lia].
Qed.

(** X7. When two entries of a field map name the same target property,
    the later entry wins: for a field map with distinct source columns
    and a row with enough columns, a property of the record holds the
    column at the position of the last entry that names it, and the
    record has a property for each target name and no other. *)
Theorem convertir_fila_ultima_entrada (mapeo : dict) (fila : tupla) :
  NoDup (claves mapeo) ->
  length mapeo <= length fila ->
  exists r,
    convertir_fila mapeo fila = Ok r /\
    (forall p v, r !! p = Some v <->
       exists i k, mapeo !! i = Some (k, p) /\ fila !! i = Some v /\
                   forall j k', i < j -> mapeo !! j <> Some (k', p)) /\
    (forall p, is_Some (r !! p) <-> p ∈ valores mapeo).
Proof.
  intros Hk Hlen.
  assert (Hget : forall k p, (k, p) ∈ mapeo -> dict_get mapeo k = Some p)
    by (intros k p; by apply dict_get_elem).
  destruct (llenar_registro_ultimo mapeo fila mapeo 0 ∅ Hget)
    as (r & Hr & Hlook); [simpl; lia|].
  assert (Hlook' : forall p v, r !! p = Some v <->
            exists i k, mapeo !! i = Some (k, p) /\ fila !! i = Some v /\
                        forall j k', i < j -> mapeo !! j <> Some (k', p)).
  { intros p v. rewrite Hlook. simpl. split.
    - intros [H|[H _]]; [done|by rewrite lookup_empty in H].
    - intros H. by left. }
  exists r. split; [exact Hr|]. split; [exact Hlook'|].
  intros p. split.
  - intros [v Hv]. apply Hlook' in Hv as (i & k & Hi & _).
    apply elem_of_valores. eauto.
  - intros Hp. apply elem_of_valores in Hp as (j & k & Hj).
    (* the last position that names [p] *)
    assert (Hult : forall n j k, j < n -> mapeo !! j = Some (k, p) ->
              exists i k', mapeo !! i = Some (k', p) /\
                           forall j' k'', i < j' -> j' < n ->
                                          mapeo !! j' <> Some (k'', p)).
    { clear. induction n as [|n IH]; intros j k Hlt Hj; [lia|].
      destruct (mapeo !! n) as [[k0 p0]|] eqn:Hn.
      - destruct (decide (p0 = p)) as [->|Hne].
        + exists n, k0. split; [done|]. intros; lia.
        + assert (j < n).
          { destruct (decide (j = n)) as [->|]; [congruence|lia]. }
          destruct (IH j k) as (i & k' & Hi & Hlast); [done|done|].
          exists i, k'. split; [done|]. intros j' k'' H1 H2.
          destruct (decide (j' = n)) as [->|]; [congruence|].
          apply Hlast; lia.
      - assert (j < n).
        { destruct (decide (j = n)) as [->|]; [congruence|lia]. }
        destruct (IH j k) as (i & k' & Hi & Hlast); [done|done|].
        exists i, k'. split; [done|]. intros j' k'' H1 H2.
        destruct (decide (j' = n)) as [->|]; [congruence|].
        apply Hlast; lia. }
    destruct (Hult (length mapeo) j k) as (i & k' & Hi & Hlast).
    { by apply lookup_lt_Some in Hj. } { done. }
    destruct (lookup_lt_is_Some_2 fila i) as [v Hv].
    { apply lookup_lt_Some in Hi. lia. }
    exists v. apply Hlook'. exists i, k'. split; [done|]. split; [done|].
    intros j' k'' Hlt Hj'. apply (Hlast j' k''); [done| |done].
    by apply lookup_lt_Some in Hj'.
Qed.

Lemma convertir_todas_error {A B : Type} (f : A -> resultado B)
    (l : list A) (e : excepcion) :
  (forall x e', f x = Error e' -> e' = e) ->
  Exists (fun x => exists e', f x = Error e') l ->
  convertir_todas f l = Error e.
Proof.
  intros Hf. induction l as [|x l IH]; intros Hex.
  - by apply Exists_nil in Hex.
  - simpl. destruct (f x) as [y|e'] eqn:Hx.
    + apply Exists_cons in Hex as [[e' He']|Hex]; [congruence|].
      by rewrite IH.
    + by rewrite (Hf x e' Hx).
Qed.

(** X8. The rows of a unit are all converted before anything is written:
    one row of an entity with fewer columns than its field map has
    entries, or one row of a relationship with fewer than two columns,
    makes the unit raise [IndexError] right after its query, and no
    statement is sent for any of its rows, the well-formed ones
    included. For a relationship this comes before its labels are looked
    up. *)
Theorem fila_corta_impide_el_lote (pg : string -> resultado (list tupla))
    (neo4j_acepta : string -> parametros -> bool) (opc : opciones_t) :
  (forall (e : entidad) (datos : list tupla),
     NoDup (claves (mapeo_campos e)) ->
     pg (e_consulta_sql e) = Ok datos ->
     Exists (fun fila => length fila < length (mapeo_campos e)) datos ->
     migrar_entidad pg neo4j_acepta opc e
     = ([EvPrint (MsgMigrando (e_nombre e) (etiqueta_neo4j e));
         EvSQL (e_consulta_sql e)], Error IndexError)) /\
  (forall (es : list entidad) (r : relacion) (datos : list tupla),
     pg (r_consulta_sql r) = Ok datos ->
     Exists (fun fila => length fila < 2) datos ->
     migrar_relacion pg neo4j_acepta opc es r
     = ([EvPrint (MsgCreandoRelaciones (tipo_relacion r));
         EvSQL (r_consulta_sql r)], Error IndexError)).
Proof.
  split.
  - intros e datos Hk Hpg Hex.
    assert (Hconv : convertir_todas (convertir_fila (mapeo_campos e)) datos
                    = Error IndexError).
    { apply convertir_todas_error.
      - intros fila e' He'.
        destruct (convertir_fila_resultado (mapeo_campos e) fila Hk)
          as [Hok Hcorta].
        destruct (decide (length fila < length (mapeo_campos e))) as [Hlt|].
        + rewrite (Hcorta Hlt) in He'. congruence.
        + destruct Hok as [r Hr]; [lia|]. congruence.
      - eapply Exists_impl; [exact Hex|]. intros fila Hlt. simpl in Hlt.
        exists IndexError.
        by apply (convertir_fila_resultado (mapeo_campos e) fila Hk). }
    rewrite migrar_entidad_eq, Hpg, Hconv.
    destruct datos; [by apply Exists_nil in Hex|done].
  - intros es r datos Hpg Hex.
    assert (Hconv : convertir_todas convertir_fila_relacion datos
                    = Error IndexError).
    { apply convertir_todas_error.
      - intros fila e'. unfold convertir_fila_relacion, indice.
        destruct (fila !! 0); [|congruence].
        destruct (fila !! 1); congruence.
      - eapply Exists_impl; [exact Hex|]. intros fila Hlt. simpl in Hlt.
        exists IndexError. by apply convertir_fila_relacion_corta. }
    rewrite migrar_relacion_eq, Hpg, Hconv.
    destruct datos; [by apply Exists_nil in Hex|done].
Qed.

(** ** Resolving the endpoints of a relationship *)

(** X9. The entity of a relationship endpoint is the first declared
    entity that carries the label: the lookup returns an entity exactly
    when that entity carries the label and no entity declared before it
    does, and it raises, always [StopIteration], exactly when no declared
    entity carries the label. *)
Theorem next_entidad_primera (es : list entidad) (etiqueta : string) :
  (forall e : entidad,
     next_entidad es etiqueta = Ok e <->
     exists antes despues,
     es = antes ++ e :: despues /\ etiqueta_neo4j e = etiqueta /\
     Forall (fun x => etiqueta_neo4j x <> etiqueta) antes) /\
  (forall err : excepcion,
     next_entidad es etiqueta = Error err <->
     err = StopIteration /\
     Forall (fun x => etiqueta_neo4j x <> etiqueta) es).
Proof.
  split.
  { intros e.
    induction es as [|x es IH]; simpl.
    - split; [done|]. intros (antes & despues & H & _). by destruct antes.
    - destruct (decide (etiqueta_neo4j x = etiqueta)) as [Hx|Hx].
      + split.
        * intros [= <-]. exists [], es. by repeat split.
        * intros (antes & despues & H & He & Hantes).
          destruct antes as [|y antes]; simpl in H.
          -- by injection H as <- _.
          -- injection H as <- _. by apply Forall_cons in Hantes as [? _].
      + rewrite IH. split.
        * intros (antes & despues & -> & He & Hantes).
          exists (x :: antes), despues. split; [done|]. split; [done|].
          by constructor.
        * intros (antes & despues & H & He & Hantes).
          destruct antes as [|y antes]; simpl in H.
          -- injection H as -> _. congruence.
          -- injection H as -> ->. apply Forall_cons in Hantes as [_ ?].
             by exists antes, despues.
  }
  { intros err.
    induction es as [|x es IH]; simpl.
    - split; [by intros [= <-]|by intros [-> _]].
    - destruct (decide (etiqueta_neo4j x = etiqueta)) as [Hx|Hx].
      + split; [done|]. intros [_ H]. by apply Forall_cons in H as [? _].
      + rewrite IH. split.
        * intros [-> H]. split; [done|]. by constructor.
        * intros [-> H]. by apply Forall_cons in H as [_ ?].
  }
Qed.

(** X10. The statement of a relationship is generated exactly when both
    endpoint labels are declared and both resolved entities have a field
    map that is not empty, and it then matches each endpoint on the
    identity field of its resolved entity. An undeclared label raises
    [StopIteration], also when a resolved entity has an empty field map;
    an empty field map raises [IndexError] only when both labels are
    declared. *)
Theorem consulta_relaciones_casos (es : list entidad) (r : relacion) :
  (forall c : string,
     consulta_relaciones es r = Ok c <->
     exists eo ed ido idd,
       next_entidad es (nodo_origen r) = Ok eo /\
       next_entidad es (nodo_destino r) = Ok ed /\
       campo_id eo = Some ido /\ campo_id ed = Some idd /\
       c = texto_consulta_relaciones (nodo_origen r) ido (nodo_destino r) idd
             (tipo_relacion r)) /\
  (consulta_relaciones es r = Error StopIteration <->
   etiqueta_declarada es (nodo_origen r) = false
   \/ etiqueta_declarada es (nodo_destino r) = false) /\
  (consulta_relaciones es r = Error IndexError <->
   exists eo ed,
     next_entidad es (nodo_origen r) = Ok eo /\
     next_entidad es (nodo_destino r) = Ok ed /\
     (mapeo_campos eo = [] \/ mapeo_campos ed = [])).
Proof.
  unfold consulta_relaciones.
  destruct (etiqueta_declarada es (nodo_origen r)) eqn:Ho.
  2:{ rewrite (next_entidad_no_declarada _ _ Ho). split; [|split].
      - intros c. split; [done|]. by intros (? & ? & ? & ? & ? & _).
      - split; auto.
      - split; [done|]. by intros (? & ? & ? & _). }
  destruct (next_entidad_declarada _ _ Ho) as [eo Heo]. rewrite Heo.
  destruct (etiqueta_declarada es (nodo_destino r)) eqn:Hd.
  2:{ rewrite (next_entidad_no_declarada _ _ Hd). split; [|split].
      - intros c. split; [done|]. by intros (? & ? & ? & ? & _ & ? & _).
      - split; auto.
      - split; [done|]. by intros (? & ? & _ & ? & _). }
  destruct (next_entidad_declarada _ _ Hd) as [ed Hed]. rewrite Hed.
  rewrite !indice_0_head. fold (campo_id eo). fold (campo_id ed).
  destruct (campo_id eo) as [ido|] eqn:Hido.
  - destruct (campo_id ed) as [idd|] eqn:Hidd.
    + split; [|split].
      * intros c. split.
        -- intros [= <-]. by exists eo, ed, ido, idd.
        -- intros (eo' & ed' & ido' & idd' & [= <-] & [= <-] & H1 & H2 & ->).
           congruence.
      * split; [done|]. by intros [|].
      * split; [done|]. intros (eo' & ed' & [= <-] & [= <-] & [H|H]);
          apply campo_id_None in H; congruence.
    + split; [|split].
      * intros c. split; [done|].
        intros (eo' & ed' & ido' & idd' & _ & [= <-] & _ & H2 & _).
        congruence.
      * split; [done|]. by intros [|].
      * split; [|done]. intros _. exists eo, ed. split; [done|].
        split; [done|]. right. by apply campo_id_None.
  - split; [|split].
    + intros c. split; [done|].
      intros (eo' & ed' & ido' & idd' & [= <-] & _ & H1 & _). congruence.
    + split; [done|]. by intros [|].
    + split; [|done]. intros _. exists eo, ed. split; [done|].
      split; [done|]. left. by apply campo_id_None.
Qed.

(** ** What the debug option changes *)

Lemma accesos_app (t1 t2 : traza) :
  accesos (t1 ++ t2) = accesos t1 ++ accesos t2.
Proof. apply omap_app. Qed.

Lemma mismo_efecto_refl {A : Type} (m : M A) : mismo_efecto m m.
Proof. by split. Qed.

Lemma mismo_efecto_bind {A B : Type} (m1 m2 : M A) (f1 f2 : A -> M B) :
  mismo_efecto m1 m2 -> (forall a, mismo_efecto (f1 a) (f2 a)) ->
  mismo_efecto (bind m1 f1) (bind m2 f2).
Proof.
  intros [Ht Hr] Hf. destruct m1 as [t1 r1], m2 as [t2 r2]. simpl in *.
  subst r2. destruct r1 as [a|e]; [|by split].
  specialize (Hf a). unfold bind.
  destruct (f1 a) as [u1 s1], (f2 a) as [u2 s2]. destruct Hf as [Hu Hs].
  simpl in *. split; simpl; [|done]. by rewrite !accesos_app, Ht, Hu.
Qed.

Lemma mismo_efecto_para_cada {A : Type} (f1 f2 : A -> M unit) (l : list A) :
  (forall x, mismo_efecto (f1 x) (f2 x)) ->
  mismo_efecto (para_cada f1 l) (para_cada f2 l).
Proof.
  intros Hf. induction l as [|x l IH]; simpl; [apply mismo_efecto_refl|].
  by apply mismo_efecto_bind.
Qed.

Lemma mismo_efecto_aviso (b1 b2 : bool) (msg : mensaje) :
  mismo_efecto (cuando b1 (imprimir msg)) (cuando b2 (imprimir msg)).
Proof. by destruct b1, b2. Qed.

Section Depuracion.

Variable pg : string -> resultado (list tupla).
Variable neo4j_acepta : string -> parametros -> bool.
Variable neo4j_total : string -> Z.

Lemma migrar_entidad_mismo_efecto (opc1 opc2 : opciones_t) (e : entidad) :
  mismo_efecto (migrar_entidad pg neo4j_acepta opc1 e)
    (migrar_entidad pg neo4j_acepta opc2 e).
Proof.
  unfold migrar_entidad. cbv zeta.
  apply mismo_efecto_bind; [apply mismo_efecto_refl|intros _].
  apply mismo_efecto_bind; [apply mismo_efecto_refl|intros datos].
  destruct datos as [|fila datos]; [apply mismo_efecto_refl|].
  apply mismo_efecto_bind; [apply mismo_efecto_refl|intros regs].
  apply mismo_efecto_bind; [apply mismo_efecto_refl|intros c].
  apply mismo_efecto_bind; [apply mismo_efecto_aviso|intros _].
  apply mismo_efecto_refl.
Qed.

Lemma migrar_relacion_mismo_efecto (opc1 opc2 : opciones_t)
    (es : list entidad) (r : relacion) :
  mismo_efecto (migrar_relacion pg neo4j_acepta opc1 es r)
    (migrar_relacion pg neo4j_acepta opc2 es r).
Proof.
  unfold migrar_relacion. cbv zeta.
  apply mismo_efecto_bind; [apply mismo_efecto_refl|intros _].
  apply mismo_efecto_bind; [apply mismo_efecto_refl|intros datos].
  destruct datos as [|fila datos]; [apply mismo_efecto_refl|].
  apply mismo_efecto_bind; [apply mismo_efecto_refl|intros regs].
  apply mismo_efecto_bind; [apply mismo_efecto_refl|intros c].
  apply mismo_efecto_bind; [apply mismo_efecto_aviso|intros _].
  apply mismo_efecto_refl.
Qed.

(** X11. The option [modo_debug] and the keys the program does not read
    change nothing but the console: two mappings with the same entities,
    the same relationships and the same values of [limpiar_neo4j_antes]
    and [crear_indices] make an automatic run issue the same source
    queries and the same statements with the same parameters, in the
    same order, and end with the same result or the same exception. *)
Theorem modo_debug_solo_imprime (m1 m2 : mapeo_migracion) :
  entidades m1 = entidades m2 ->
  relaciones m1 = relaciones m2 ->
  limpiar_neo4j_antes (default sin_opciones (opciones m1))
  = limpiar_neo4j_antes (default sin_opciones (opciones m2)) ->
  crear_indices (default sin_opciones (opciones m1))
  = crear_indices (default sin_opciones (opciones m2)) ->
  mismo_efecto
    (ejecutar_migracion_automatica pg neo4j_acepta neo4j_total m1)
    (ejecutar_migracion_automatica pg neo4j_acepta neo4j_total m2).
Proof.
  intros He Hr Hl Hc. unfold ejecutar_migracion_automatica. cbv zeta.
  rewrite He, Hr.
  apply mismo_efecto_bind.
  { unfold preludio. rewrite Hl. apply mismo_efecto_refl. }
  intros _. apply mismo_efecto_bind; [apply mismo_efecto_refl|intros es].
  apply mismo_efecto_bind.
  { apply mismo_efecto_para_cada. intros e.
    apply migrar_entidad_mismo_efecto. }
  intros _. apply mismo_efecto_bind; [apply mismo_efecto_refl|intros _].
  apply mismo_efecto_bind; [apply mismo_efecto_refl|intros rs].
  apply mismo_efecto_bind.
  { apply mismo_efecto_para_cada. intros r.
    apply migrar_relacion_mismo_efecto. }
  intros _. unfold epilogo. rewrite Hc. apply mismo_efecto_refl.
Qed.

(** X12. An automatic run returns exactly when the clearing, if
    configured, is accepted, both keys [entidades] and [relaciones] are
    present, every entity and every relationship is processed without
    exception, and the closing phases return. A missing key is found
    late: without [entidades] the run raises [KeyError] after the
    clearing, and without [relaciones] it raises [KeyError] once every
    entity has been migrated and phase 2 announced. *)
Theorem claves_ausentes_fallan_tarde (m : mapeo_migracion) :
  let opc := default sin_opciones (opciones m) in
  let auto := ejecutar_migracion_automatica pg neo4j_acepta neo4j_total in
  let me := migrar_entidad pg neo4j_acepta opc in
  let pre := preludio neo4j_acepta opc in
  (forall s : string,
     (auto m).2 = Ok s <->
     pre.2 = Ok tt /\
     exists es rs,
       entidades m = Some es /\ relaciones m = Some rs /\
       Forall (termina_bien me) es /\
       Forall (termina_bien (migrar_relacion pg neo4j_acepta opc es)) rs /\
       (epilogo neo4j_acepta neo4j_total opc es rs).2 = Ok s) /\
  (entidades m = None -> pre.2 = Ok tt ->
   auto m = (pre.1, Error (KeyError "entidades"))) /\
  (forall es : list entidad,
     entidades m = Some es -> relaciones m = None -> pre.2 = Ok tt ->
     Forall (termina_bien me) es ->
     auto m
     = (pre.1 ++ concat (map (fun e => (me e).1) es) ++ [EvPrint MsgFase2],
        Error (KeyError "relaciones"))).
Proof.
  intros opc auto me pre. subst auto. split; [|split].
  - intros s. rewrite automatica_eq. fold opc. fold pre.
    destruct pre as [t0 [[]|e]]; simpl.
    2:{ split; [done|]. by intros [? _]. }
    destruct (entidades m) as [es|]; simpl.
    2:{ split; [done|]. by intros (_ & es & rs & ? & _). }
    fold me. pose proof (para_cada_res_ok me es) as Hes.
    destruct (para_cada me es) as [t1 [[]|e]]; simpl in *.
    2:{ split; [done|]. intros (_ & es' & rs & [= <-] & _ & H & _).
        by apply Hes in H. }
    destruct (relaciones m) as [rs|]; simpl.
    2:{ split; [done|]. by intros (_ & es' & rs & _ & ? & _). }
    pose proof (para_cada_res_ok
                  (migrar_relacion pg neo4j_acepta opc es) rs) as Hrs.
    destruct (para_cada (migrar_relacion pg neo4j_acepta opc es) rs)
      as [t2 [[]|e]]; simpl in *.
    + split.
      * intros H. split; [done|]. exists es, rs.
        split; [done|]. split; [done|]. split; [by apply Hes|].
        split; [by apply Hrs|done].
      * by intros (_ & es' & rs' & [= <-] & [= <-] & _ & _ & H).
    + split; [done|].
      intros (_ & es' & rs' & [= <-] & [= <-] & _ & H & _).
      by apply Hrs in H.
  - intros He Hpre. rewrite automatica_eq. fold opc. fold pre.
    destruct pre as [t0 [[]|e]]; simpl in *; [|done]. by rewrite He.
  - intros es He Hr Hpre Hes. rewrite automatica_eq. fold opc. fold pre.
    destruct pre as [t0 [[]|e]]; simpl in *; [|done]. rewrite He.
    fold me. rewrite (para_cada_ok me es Hes). by rewrite Hr.
Qed.

End Depuracion.

(** ** The connections of a process *)

Lemma Forall_intentar {A : Type} (P : evento -> Prop) (m : M A)
    (h : excepcion -> M A) :
  Forall P m.1 -> (forall e, Forall P (h e).1) -> Forall P (intentar m h).1.
Proof.
  intros Hm Hh. destruct m as [t [a|e]]; simpl in *; [done|].
  specialize (Hh e). destruct (h e) as [t' r]. simpl in *.
  by apply Forall_app.
Qed.

Lemma cierres_app (t1 t2 : traza) :
  cierres (t1 ++ t2) = cierres t1 ++ cierres t2.
Proof. apply omap_app. Qed.

Lemma cierres_de_migracion (t : traza) :
  Forall de_migracion t -> cierres t = [].
Proof.
  induction 1 as [|ev t Hev _ IH]; [done|]. by destruct ev.
Qed.

Section Proceso.

Variable pg : string -> resultado (list tupla).
Variable neo4j_acepta : string -> parametros -> bool.
Variable neo4j_total : string -> Z.
Variable conecta_postgres : bool.
Variable conecta_neo4j : bool.

Local Ltac componer :=
  repeat first
    [ apply Forall_nil_2
    | apply Forall_para_cada; intros ?
    | apply Forall_bind; [|intros ?]
    | apply Forall_intentar; [|intros ?]
    | by repeat constructor
    | match goal with
      | |- Forall _ (match ?x with _ => _ end).1 => destruct x
      | |- Forall _ (if ?x then _ else _).1 => destruct x
      end ].

Lemma run_de_migracion (c : string) (p : parametros) :
  Forall de_migracion (run neo4j_acepta c p).1.
Proof. rewrite run_eq. by repeat constructor. Qed.

Lemma execute_write_de_migracion (f : funcion_tx) (c : string)
    (regs : list parametros) (et : string) :
  Forall de_migracion (execute_write neo4j_acepta f c regs et).1.
Proof.
  unfold execute_write, crear_nodos_neo4j, crear_relaciones_neo4j.
  apply Forall_bind; [by repeat constructor|intros _].
  destruct f; (apply Forall_bind; [|intros _; by repeat constructor]);
    apply Forall_para_cada; intros p; apply run_de_migracion.
Qed.

Lemma automatica_de_migracion (m : mapeo_migracion) :
  Forall de_migracion
    (ejecutar_migracion_automatica pg neo4j_acepta neo4j_total m).1.
Proof.
  unfold ejecutar_migracion_automatica, preludio, epilogo, migrar_entidad,
    migrar_relacion, crear_indice, contar_nodos, contar_relaciones,
    obtener_datos_postgresql, cuando, clave.
  cbv zeta.
  repeat first
    [ apply run_de_migracion | apply execute_write_de_migracion
    | progress componer ].
Qed.

Lemma manual_de_migracion :
  Forall de_migracion (ejecutar_migracion_manual pg neo4j_acepta).1.
Proof.
  unfold ejecutar_migracion_manual, obtener_datos_postgresql.
  repeat first
    [ apply run_de_migracion | apply execute_write_de_migracion
    | progress componer ].
Qed.

Lemma ejecutar_migracion_de_migracion (archivo : option mapeo_migracion) :
  Forall de_migracion
    (ejecutar_migracion pg neo4j_acepta neo4j_total archivo).1.
Proof.
  unfold ejecutar_migracion. apply Forall_bind; [by repeat constructor|].
  intros _. destruct (seleccionar_modo archivo); simpl;
    [apply automatica_de_migracion|apply manual_de_migracion].
Qed.

Lemma conectar_sin_cierres (borrar_al_iniciar : bool) :
  cierres (conectar neo4j_acepta conecta_postgres conecta_neo4j
             borrar_al_iniciar).1 = [].
Proof.
  unfold conectar, limpiar_neo4j, cuando, run.
  destruct conecta_postgres, conecta_neo4j, borrar_al_iniciar;
    try reflexivity; simpl; by destruct (neo4j_acepta consulta_limpiar ∅).
Qed.

Lemma conectar_bien (borrar_al_iniciar : bool) :
  (conectar neo4j_acepta conecta_postgres conecta_neo4j
     borrar_al_iniciar).2 = Ok tt
  <-> conecta_postgres = true /\ conecta_neo4j = true
      /\ (borrar_al_iniciar = true -> neo4j_acepta consulta_limpiar ∅ = true).
Proof.
  unfold conectar, limpiar_neo4j, cuando, run.
  destruct conecta_postgres, conecta_neo4j, borrar_al_iniciar; simpl;
    try destruct (neo4j_acepta consulta_limpiar ∅); simpl;
    (split; [try done; intros _; repeat split; done|]);
    try done; intros (? & ? & H); try done; by specialize (H eq_refl).
Qed.

(** X13. The console process ends with status 0 exactly when both
    connections are made and the clearing at start, if configured, is
    accepted, and with status 1 otherwise. With status 0 the two
    connections are closed once, as the last thing the process does,
    whether the migration returned or raised; with status 1 nothing is
    closed, not even a connection to PostgreSQL that was made before
    Neo4j failed. *)
Theorem principal_cierra_al_final (archivo : option mapeo_migracion)
    (borrar_al_iniciar : bool) :
  let r := principal pg neo4j_acepta neo4j_total conecta_postgres
             conecta_neo4j archivo borrar_al_iniciar in
  (r.2 = 0%Z <->
   conecta_postgres = true /\ conecta_neo4j = true
   /\ (borrar_al_iniciar = true -> neo4j_acepta consulta_limpiar ∅ = true))
  /\ (r.2 = 0%Z \/ r.2 = 1%Z)
  /\ (r.2 = 0%Z ->
      exists t, r.1 = t ++ cerrar_conexiones /\ cierres t = [])
  /\ (r.2 = 1%Z -> cierres r.1 = []).
Proof.
  intros r. subst r. unfold principal.
  pose proof (conectar_bien borrar_al_iniciar) as Hbien.
  pose proof (conectar_sin_cierres borrar_al_iniciar) as Hcon.
  pose proof (ejecutar_migracion_de_migracion archivo) as Hmig.
  apply cierres_de_migracion in Hmig.
  assert (Hcarga : cierres (cargar_mapeo archivo) = [])
    by (by destruct archivo).
  destruct (conectar _ _ _ _) as [t0 [[]|e]].
  - simpl in Hcon.
    destruct (ejecutar_migracion _ _ _ _) as [t1 [s|e]]; simpl in *.
    + split; [split; [intros _; by apply Hbien|done]|].
      split; [by left|]. split; [|done]. intros _.
      exists (cargar_mapeo archivo ++ t0 ++ t1 ++ [EvPrint (MsgResultado s)]).
      split; [by rewrite <- !app_assoc|].
      by rewrite !cierres_app, Hcarga, Hcon, Hmig.
    + split; [split; [intros _; by apply Hbien|done]|].
      split; [by left|]. split; [|done]. intros _.
      exists (cargar_mapeo archivo ++ t0 ++ t1
                ++ [EvPrint (MsgErrorMigracion e)]).
      split; [by rewrite <- !app_assoc|].
      by rewrite !cierres_app, Hcarga, Hcon, Hmig.
  - simpl in *. split.
    { split; [done|]. intros H. by apply Hbien in H. }
    split; [by right|]. split; [done|]. intros _.
    by rewrite !cierres_app, Hcarga, Hcon.
Qed.

(** X14. One click in the window: the handler returns exactly when the
    connections are made, and then shows one message box, the result of
    the migration or its exception. After a migration that returned, the
    connections are closed twice, before and after the message box;
    after one that raised, once, after the message box is dismissed.
    When the connection fails no box is shown, the handler is left by
    [SystemExit], and what is closed is the migrator of an earlier
    click, if there is one. *)
Theorem clic_cierra_las_conexiones (archivo : option mapeo_migracion)
    (borrar_al_iniciar : bool) (migrador : bool) :
  let r := AplicacionGUI.ejecutar_migracion pg neo4j_acepta neo4j_total
             conecta_postgres conecta_neo4j archivo borrar_al_iniciar
             migrador in
  let con := conectar neo4j_acepta conecta_postgres conecta_neo4j
               borrar_al_iniciar in
  let mig := ejecutar_migracion pg neo4j_acepta neo4j_total archivo in
  (r.2 = Vuelve <-> con.2 = Ok tt) /\
  (con.2 = Ok tt ->
   r.1.2 = true /\
   match mig.2 with
   | Ok s =>
       r.1.1 = consola (con.1 ++ mig.1 ++ cerrar_conexiones)
                 ++ inr (Informacion "Éxito" s) :: consola cerrar_conexiones
       /\ cierres (de_consola r.1.1)
          = [EvCerrarPostgres; EvCerrarNeo4j; EvCerrarPostgres; EvCerrarNeo4j]
   | Error e =>
       r.1.1 = consola (con.1 ++ mig.1)
                 ++ inr (Critico "Error" e) :: consola cerrar_conexiones
       /\ cierres (de_consola r.1.1) = [EvCerrarPostgres; EvCerrarNeo4j]
   end) /\
  (forall e, con.2 = Error e ->
   r.2 = SystemExit 1 /\ r.1.2 = migrador /\ dialogos r.1.1 = [] /\
   cierres (de_consola r.1.1)
   = if migrador then [EvCerrarPostgres; EvCerrarNeo4j] else []).
Proof.
  intros r con mig. subst r. unfold AplicacionGUI.ejecutar_migracion.
  pose proof (conectar_sin_cierres borrar_al_iniciar) as Hcon.
  pose proof (ejecutar_migracion_de_migracion archivo) as Hmig.
  apply cierres_de_migracion in Hmig. fold con in Hcon |- *.
  fold mig in Hmig |- *.
  assert (Hdc : forall t, de_consola (consola t) = t).
  { intros t. unfold de_consola, consola.
    induction t as [|ev t IH]; [done|]. simpl. by f_equal. }
  assert (Hdd : forall t, dialogos (consola t) = []).
  { intros t. unfold dialogos, consola.
    induction t as [|ev t IH]; [done|]. simpl. exact IH. }
  assert (Happ : forall t1 t2, de_consola (t1 ++ t2)
                               = de_consola t1 ++ de_consola t2)
    by (intros; apply omap_app).
  destruct con as [t0 [[]|e]]; simpl in Hcon.
  - destruct mig as [t1 [s|e]]; simpl in Hmig; cbn [fst snd].
    + split; [done|]. split; [|done]. intros _. split; [done|].
      split; [done|].
      rewrite Happ, Hdc. change (inr ?d :: ?l) with ([inr d] ++ l).
      rewrite Happ, Hdc, !cierres_app, Hcon, Hmig. reflexivity.
    + split; [done|]. split; [|done]. intros _. split; [done|].
      split; [done|].
      rewrite Happ, Hdc. change (inr ?d :: ?l) with ([inr d] ++ l).
      rewrite Happ, Hdc, !cierres_app, Hcon, Hmig. reflexivity.
  - cbn [fst snd]. split; [done|]. split; [done|].
    intros e' _. split; [done|]. split; [done|]. split.
    + assert (Hda : forall t1 t2, dialogos (t1 ++ t2)
                                  = dialogos t1 ++ dialogos t2)
        by (intros; apply omap_app).
      by rewrite Hda, !Hdd.
    + rewrite Happ, !Hdc, !cierres_app, Hcon. by destruct migrador.
Qed.

End Proceso.

(** ** The manual mode as an instance of the declarative conversion *)

(** X15. The four conversions written out in the manual mode are
    instances of the conversion of the automatic mode: each of them
    gives, on every row, the record or the exception that the
    field-map conversion gives under a field map with distinct source
    columns and the target names [id], [nombre], [email] (users), [id],
    [texto] (posts), [id1], [id2] (friendships) and [autor], [post]
    (authorships). *)
Theorem manual_como_mapeo (k1 k2 k3 : string) (fila : tupla) :
  NoDup [k1; k2; k3] ->
  usuario_dict fila
  = convertir_fila [(k1, "id"); (k2, "nombre"); (k3, "email")] fila
  /\ post_dict fila = convertir_fila [(k1, "id"); (k2, "texto")] fila
  /\ amistad_dict fila = convertir_fila [(k1, "id1"); (k2, "id2")] fila
  /\ publicacion_autor_dict fila
     = convertir_fila [(k1, "autor"); (k2, "post")] fila.
Proof.
  intros Hk. apply NoDup_cons in Hk as [H1 Hk].
  apply NoDup_cons in Hk as [H2 _].
  assert (H12 : k1 <> k2) by (intros ->; apply H1; left).
  assert (H13 : k1 <> k3) by (intros ->; apply H1; right; left).
  assert (H23 : k2 <> k3) by (intros ->; apply H2; left).
  unfold usuario_dict, post_dict, amistad_dict, publicacion_autor_dict,
    convertir_fila, claves.
  destruct fila as [|a [|b [|c resto]]]; simpl;
    repeat case_decide; try congruence; done.
Qed.

(** * An invalid mapping *)

Lemma epilogo_indice_vacio (neo4j_acepta : string -> parametros -> bool)
    (neo4j_total : string -> Z) (opc : opciones_t)
    (es1 : list entidad) (e : entidad) (es2 : list entidad)
    (rs : list relacion) :
  crear_indices opc = true ->
  Forall (fun x => mapeo_campos x <> []) es1 ->
  mapeo_campos e = [] ->
  epilogo neo4j_acepta neo4j_total opc (es1 ++ e :: es2) rs
  = (EvPrint MsgFase3
       :: concat (map (fun x => (crear_indice neo4j_acepta x).1) es1),
     Error IndexError).
Proof.
  intros Hci Hes1 He.
  assert (Hbien : Forall (termina_bien (crear_indice neo4j_acepta)) es1).
  { eapply Forall_impl; [exact Hes1|]. intros x. apply crear_indice_bien. }
  assert (Hmal : crear_indice neo4j_acepta e = ([], Error IndexError)).
  { rewrite crear_indice_eq. apply campo_id_None in He. by rewrite He. }
  unfold epilogo. rewrite Hci. unfold cuando.
  rewrite (para_cada_falla (crear_indice neo4j_acepta) es1 e es2 IndexError
             Hbien); [|by rewrite Hmal].
  rewrite Hmal. cbn [fst]. by rewrite app_nil_r.
Qed.

Section MapeoInvalido.

Variable pg : string -> resultado (list tupla).
Variable neo4j_acepta : string -> parametros -> bool.
Variable neo4j_total : string -> Z.

Local Abbreviation me := (migrar_entidad pg neo4j_acepta).
Local Abbreviation mr := (migrar_relacion pg neo4j_acepta).
Local Abbreviation pre := (preludio neo4j_acepta).
Local Abbreviation auto :=
  (ejecutar_migracion_automatica pg neo4j_acepta neo4j_total).

(** C4, as amended. The mapping is used as loaded, without validation,
    and an invalid one fails late, after I/O. An entity with an empty
    field map has its query executed at its turn; it raises [IndexError]
    there when the query has returned a row, after the prelude (with the
    clearing, when configured) and the entities declared before it, and it
    is skipped when the query has returned none; once every entity and
    relationship has been migrated, the index phase, when configured,
    raises [IndexError] at the first entity with an empty field map,
    after the entities before it have been indexed. A
    relationship with an undeclared origin or destination label has its
    query executed at its turn, after every entity and the relationships
    declared before it; it is skipped when the query has returned no
    row, raises [StopIteration] there when every row has two columns or
    more, and [IndexError] when some row has fewer. *)
Theorem mapeo_invalido_falla_tarde (m : mapeo_migracion) :
  let opc := default sin_opciones (opciones m) in
  (forall e : entidad,
     mapeo_campos e = [] ->
     me opc e
     = match pg (e_consulta_sql e) with
       | Error err => (cabecera_entidad e, Error err)
       | Ok [] =>
           (cabecera_entidad e ++ [EvPrint (MsgSinDatos (e_nombre e))],
            Ok tt)
       | Ok (_ :: _) => (cabecera_entidad e, Error IndexError)
       end) /\
  (forall (es1 : list entidad) (e : entidad) (es2 : list entidad)
          (fila : tupla) (datos : list tupla),
     entidades m = Some (es1 ++ e :: es2) ->
     (pre opc).2 = Ok tt ->
     Forall (termina_bien (me opc)) es1 ->
     mapeo_campos e = [] ->
     pg (e_consulta_sql e) = Ok (fila :: datos) ->
     auto m = ((pre opc).1 ++ concat (map (fun x => (me opc x).1) es1)
                 ++ [EvPrint (MsgMigrando (e_nombre e) (etiqueta_neo4j e));
                     EvSQL (e_consulta_sql e)], Error IndexError)) /\
  (forall (es1 : list entidad) (e : entidad) (es2 : list entidad)
          (rs : list relacion),
     entidades m = Some (es1 ++ e :: es2) ->
     relaciones m = Some rs ->
     (pre opc).2 = Ok tt ->
     Forall (termina_bien (me opc)) (es1 ++ e :: es2) ->
     Forall (termina_bien (mr opc (es1 ++ e :: es2))) rs ->
     crear_indices opc = true ->
     Forall (fun x => mapeo_campos x <> []) es1 ->
     mapeo_campos e = [] ->
     auto m
     = ((pre opc).1
          ++ concat (map (fun x => (me opc x).1) (es1 ++ e :: es2))
          ++ EvPrint MsgFase2
               :: concat (map (fun x => (mr opc (es1 ++ e :: es2) x).1) rs)
               ++ EvPrint MsgFase3
                    :: concat (map (fun x => (crear_indice neo4j_acepta x).1)
                                 es1),
        Error IndexError)) /\
  (forall (es : list entidad) (r : relacion),
     etiqueta_declarada es (nodo_origen r) = false
     \/ etiqueta_declarada es (nodo_destino r) = false ->
     mr opc es r
     = match pg (r_consulta_sql r) with
       | Error err => (cabecera_relacion r, Error err)
       | Ok [] =>
           (cabecera_relacion r
              ++ [EvPrint (MsgSinRelaciones (r_nombre r))], Ok tt)
       | Ok (fila :: datos) =>
           (cabecera_relacion r,
            Error (if bool_decide
                        (Forall (fun f => 2 <= length f) (fila :: datos))
                   then StopIteration else IndexError))
       end) /\
  (forall (es : list entidad) (rs1 : list relacion) (r : relacion)
          (rs2 : list relacion) (fila : tupla) (datos : list tupla),
     entidades m = Some es ->
     relaciones m = Some (rs1 ++ r :: rs2) ->
     (pre opc).2 = Ok tt ->
     Forall (termina_bien (me opc)) es ->
     Forall (termina_bien (mr opc es)) rs1 ->
     etiqueta_declarada es (nodo_origen r) = false
     \/ etiqueta_declarada es (nodo_destino r) = false ->
     pg (r_consulta_sql r) = Ok (fila :: datos) ->
     Forall (fun f => 2 <= length f) (fila :: datos) ->
     auto m = ((pre opc).1 ++ concat (map (fun x => (me opc x).1) es)
                 ++ EvPrint MsgFase2
                      :: concat (map (fun x => (mr opc es x).1) rs1)
                      ++ [EvPrint (MsgCreandoRelaciones (tipo_relacion r));
                          EvSQL (r_consulta_sql r)], Error StopIteration)).
Proof.
  intros opc.
  assert (Hent : forall e : entidad,
            mapeo_campos e = [] ->
            me opc e
            = match pg (e_consulta_sql e) with
              | Error err => (cabecera_entidad e, Error err)
              | Ok [] =>
                  (cabecera_entidad e
                     ++ [EvPrint (MsgSinDatos (e_nombre e))], Ok tt)
              | Ok (_ :: _) => (cabecera_entidad e, Error IndexError)
              end).
  { intros e Hvacio. rewrite migrar_entidad_eq.
    destruct (pg (e_consulta_sql e)) as [[|fila datos]|err]; try done.
    rewrite Hvacio, convertir_todas_mapeo_vacio.
    unfold consulta_nodos. by rewrite Hvacio. }
  assert (Hrel : forall (es : list entidad) (r : relacion),
            etiqueta_declarada es (nodo_origen r) = false
            \/ etiqueta_declarada es (nodo_destino r) = false ->
            mr opc es r
            = match pg (r_consulta_sql r) with
              | Error err => (cabecera_relacion r, Error err)
              | Ok [] =>
                  (cabecera_relacion r
                     ++ [EvPrint (MsgSinRelaciones (r_nombre r))], Ok tt)
              | Ok (fila :: datos) =>
                  (cabecera_relacion r,
                   Error (if bool_decide
                               (Forall (fun f => 2 <= length f)
                                  (fila :: datos))
                          then StopIteration else IndexError))
              end).
  { intros es r Hnd. rewrite migrar_relacion_eq.
    destruct (pg (r_consulta_sql r)) as [[|fila datos]|err]; try done.
    case_bool_decide as Hcols.
    - apply convertir_todas_relacion in Hcols as [regs ->].
      by rewrite (consulta_relaciones_no_declarada _ _ Hnd).
    - apply not_Forall_Exists in Hcols; [|apply _].
      rewrite (convertir_todas_error convertir_fila_relacion _ IndexError);
        [done| |].
      + intros x e'. unfold convertir_fila_relacion, indice.
        destruct (x !! 0); [|congruence].
        destruct (x !! 1); congruence.
      + eapply Exists_impl; [exact Hcols|]. intros x Hx. simpl in Hx.
        exists IndexError. apply convertir_fila_relacion_corta. lia. }
  split; [exact Hent|]. split; [|split; [|split; [exact Hrel|]]].
  - intros es1 e es2 fila datos Hes Hpre Hes1 Hvacio Hpg.
    assert (He : me opc e = (cabecera_entidad e, Error IndexError))
      by (by rewrite (Hent e Hvacio), Hpg).
    assert (Hrun := automatica_falla_entidad pg neo4j_acepta neo4j_total
                      m es1 e es2 IndexError Hes Hpre Hes1).
    fold opc in Hrun. rewrite He in Hrun. exact (Hrun eq_refl).
  - intros es1 e es2 rs Hes Hrs Hpre Hbien Hrbien Hci Hes1 Hvacio.
    rewrite automatica_eq. fold opc.
    destruct (pre opc) as [t0 r0]. simpl in Hpre. subst r0.
    rewrite Hes, (para_cada_ok _ _ Hbien), Hrs, (para_cada_ok _ _ Hrbien).
    by rewrite (epilogo_indice_vacio neo4j_acepta neo4j_total opc es1 e es2
                  rs Hci Hes1 Hvacio).
  - intros es rs1 r rs2 fila datos Hes Hrs Hpre Hes1 Hrs1 Hnd Hpg Hcols.
    assert (Hr : mr opc es r = (cabecera_relacion r, Error StopIteration)).
    { rewrite (Hrel es r Hnd), Hpg. by rewrite bool_decide_eq_true_2. }
    assert (Hrun := automatica_falla_relacion pg neo4j_acepta neo4j_total
                      m es rs1 r rs2 StopIteration Hes Hrs Hpre Hes1 Hrs1).
    fold opc in Hrun. rewrite Hr in Hrun. exact (Hrun eq_refl).
Qed.

End MapeoInvalido.

Lemma mapeo_invalido_falla_tarde_witness :
  (ejecutar_migracion_automatica pg_con_vacia neo4j_acepta_todo
     neo4j_total_cero mapeo_sin_campos).2 = Error IndexError
  /\ (let r := ejecutar_migracion_automatica pg_ejemplo neo4j_acepta_todo
                 neo4j_total_cero mapeo_sin_campos_indices in
      r.2 = Error IndexError
      /\ consultas_sql r.1
         = [e_consulta_sql entidad_usuarios;
            e_consulta_sql entidad_sin_campos]
      /\ escrituras r.1 = [(CrearNodos, "Persona")])
  /\ (ejecutar_migracion_automatica pg_con_autoria neo4j_acepta_todo
        neo4j_total_cero mapeo_huerfano).2 = Error StopIteration
  /\ (migrar_relacion pg_fila_corta neo4j_acepta_todo sin_opciones []
        relacion_amistad).2 = Error IndexError.
Proof.
  pose proof (mapeo_invalido_falla_tarde pg_con_vacia neo4j_acepta_todo
                neo4j_total_cero mapeo_sin_campos) as (_ & H1 & _).
  pose proof (mapeo_invalido_falla_tarde pg_ejemplo neo4j_acepta_todo
                neo4j_total_cero mapeo_sin_campos_indices)
    as (_ & _ & H2 & _).
  pose proof (mapeo_invalido_falla_tarde pg_con_autoria neo4j_acepta_todo
                neo4j_total_cero mapeo_huerfano) as (_ & _ & _ & _ & H3).
  pose proof (mapeo_invalido_falla_tarde pg_fila_corta neo4j_acepta_todo
                neo4j_total_cero mapeo_sin_claves) as (_ & _ & _ & H4 & _).
  split; [|split; [|split]].
  - rewrite (H1 [entidad_usuarios] entidad_sin_campos [] [VInt 7] []).
    + reflexivity.
    + reflexivity.
    + reflexivity.
    + constructor; [|constructor]. vm_compute. reflexivity.
    + reflexivity.
    + reflexivity.
  - cbv zeta.
    rewrite (H2 [entidad_usuarios] entidad_sin_campos [] []).
    + split; [reflexivity|]. split; vm_compute; reflexivity.
    + reflexivity.
    + reflexivity.
    + reflexivity.
    + repeat constructor; vm_compute; reflexivity.
    + constructor.
    + reflexivity.
    + by repeat constructor.
    + reflexivity.
  - rewrite (H3 [entidad_usuarios] [] relacion_huerfana []
               [VInt 1; VInt 10] []).
    + reflexivity.
    + reflexivity.
    + reflexivity.
    + reflexivity.
    + constructor; [|constructor]. vm_compute. reflexivity.
    + constructor.
    + right. reflexivity.
    + reflexivity.
    + constructor; [simpl; lia|constructor].
  - change (default sin_opciones (opciones mapeo_sin_claves))
      with sin_opciones in H4.
    rewrite (H4 [] relacion_amistad); [reflexivity|]. by left.
Defined.

(** * Instances *)

Lemma lote_hasta_el_primer_rechazo_witness :
  execute_write neo4j_rechaza_b CrearNodos sentencia_usuarios
    [registro_usuario; registro_usuario_c] "Persona"
  = ([EvExecuteWrite CrearNodos sentencia_usuarios
        [registro_usuario; registro_usuario_c] "Persona";
      EvRun sentencia_usuarios registro_usuario;
      EvRun sentencia_usuarios registro_usuario_c;
      EvPrint (MsgNodosCreados "Persona" 2)], Ok tt)
  /\ execute_write neo4j_rechaza_b CrearNodos sentencia_usuarios
       [registro_usuario; registro_usuario_b; registro_usuario_c] "Persona"
     = ([EvExecuteWrite CrearNodos sentencia_usuarios
           [registro_usuario; registro_usuario_b; registro_usuario_c]
           "Persona";
         EvRun sentencia_usuarios registro_usuario;
         EvRun sentencia_usuarios registro_usuario_b], Error ErrorNeo4j).
Proof.
  split.
  - apply (proj1 (lote_hasta_el_primer_rechazo neo4j_rechaza_b CrearNodos
                    sentencia_usuarios "Persona")
             [registro_usuario; registro_usuario_c]).
    repeat constructor.
  - apply (proj2 (lote_hasta_el_primer_rechazo neo4j_rechaza_b CrearNodos
                    sentencia_usuarios "Persona")
             [registro_usuario] registro_usuario_b [registro_usuario_c]).
    + repeat constructor.
    + reflexivity.
Defined.

Lemma indices_no_fatales_witness :
  (para_cada (crear_indice neo4j_rechaza_todo) [entidad_a; entidad_b]).2
  = Ok tt
  /\ (para_cada (crear_indice neo4j_acepta_todo)
        [entidad_a; entidad_sin_campos; entidad_b]).2
     = Error IndexError.
Proof.
  split.
  - apply (proj1 (indices_no_fatales neo4j_rechaza_todo)
             [entidad_a; entidad_b]).
    by repeat constructor.
  - apply (proj2 (indices_no_fatales neo4j_acepta_todo)
             [entidad_a] entidad_sin_campos [entidad_b]).
    + by repeat constructor.
    + reflexivity.
Defined.

Lemma epilogo_termina_witness :
  (epilogo neo4j_sin_indices neo4j_total_cero (Opciones false true false)
     [entidad_a] [relacion_amistad]).2
  = Ok "Migración automática completada exitosamente".
Proof.
  apply (proj2 (epilogo_termina neo4j_sin_indices neo4j_total_cero
                  (Opciones false true false) [entidad_a] [relacion_amistad]
                  "Migración automática completada exitosamente")).
  split; [reflexivity|]. split; [intros _; by repeat constructor|].
  split; by repeat constructor.
Defined.

Lemma sin_opcion_no_se_limpia_witness :
  consulta_limpiar
    ∉ sentencias
        (ejecutar_migracion_automatica pg_ejemplo neo4j_acepta_todo
           neo4j_total_cero mapeo_tres).1.
Proof.
  apply (sin_opcion_no_se_limpia pg_ejemplo neo4j_acepta_todo
           neo4j_total_cero mapeo_tres).
  reflexivity.
Defined.

Lemma convertir_fila_ultima_entrada_witness :
  exists r,
    convertir_fila mapeo_repetido [VInt 1; VInt 2] = Ok r /\
    (forall p v, r !! p = Some v <->
       exists i k, mapeo_repetido !! i = Some (k, p)
                   /\ [VInt 1; VInt 2] !! i = Some v
                   /\ forall j k', i < j -> mapeo_repetido !! j <> Some (k', p))
    /\ (forall p, is_Some (r !! p) <-> p ∈ valores mapeo_repetido).
Proof.
  apply (convertir_fila_ultima_entrada mapeo_repetido [VInt 1; VInt 2]).
  - apply (bool_decide_unpack _). vm_compute. exact I.
  - simpl. lia.
Defined.

Lemma fila_corta_impide_el_lote_witness :
  migrar_entidad pg_fila_corta neo4j_acepta_todo sin_opciones
    entidad_usuarios
  = ([EvPrint (MsgMigrando "usuarios" "Persona");
      EvSQL (e_consulta_sql entidad_usuarios)], Error IndexError)
  /\ migrar_relacion pg_fila_corta neo4j_acepta_todo sin_opciones
       [entidad_usuarios] relacion_amistad
     = ([EvPrint (MsgCreandoRelaciones "FRIEND_OF");
         EvSQL (r_consulta_sql relacion_amistad)], Error IndexError).
Proof.
  split.
  - apply (proj1 (fila_corta_impide_el_lote pg_fila_corta neo4j_acepta_todo
                    sin_opciones)
             entidad_usuarios
             [[VInt 1; VStr "A"; VStr "a@x"]; [VInt 2; VStr "B"]]).
    + apply (bool_decide_unpack _). vm_compute. exact I.
    + reflexivity.
    + apply Exists_cons_tl, Exists_cons_hd. simpl. lia.
  - apply (proj2 (fila_corta_impide_el_lote pg_fila_corta neo4j_acepta_todo
                    sin_opciones)
             [entidad_usuarios] relacion_amistad
             [[VInt 1; VInt 2]; [VInt 2]]).
    + reflexivity.
    + apply Exists_cons_tl, Exists_cons_hd. simpl. lia.
Defined.

Lemma modo_debug_solo_imprime_witness :
  mismo_efecto
    (ejecutar_migracion_automatica pg_ejemplo neo4j_acepta_todo
       neo4j_total_cero mapeo_ejemplo)
    (ejecutar_migracion_automatica pg_ejemplo neo4j_acepta_todo
       neo4j_total_cero mapeo_ejemplo_debug).
Proof.
  apply (modo_debug_solo_imprime pg_ejemplo neo4j_acepta_todo
           neo4j_total_cero mapeo_ejemplo mapeo_ejemplo_debug);
    reflexivity.
Defined.

Lemma claves_ausentes_fallan_tarde_witness :
  ejecutar_migracion_automatica pg_ejemplo neo4j_acepta_todo
    neo4j_total_cero mapeo_solo_opciones
  = ([EvPrint MsgAutomatica; EvPrint MsgLimpiando;
      EvRun consulta_limpiar ∅; EvPrint MsgLimpiado; EvPrint MsgFase1],
     Error (KeyError "entidades"))
  /\ (ejecutar_migracion_automatica pg_ejemplo neo4j_acepta_todo
        neo4j_total_cero mapeo_sin_relaciones).2
     = Error (KeyError "relaciones").
Proof.
  pose proof (claves_ausentes_fallan_tarde pg_ejemplo neo4j_acepta_todo
                neo4j_total_cero mapeo_solo_opciones) as (_ & H1 & _).
  pose proof (claves_ausentes_fallan_tarde pg_ejemplo neo4j_acepta_todo
                neo4j_total_cero mapeo_sin_relaciones) as (_ & _ & H2).
  split.
  - apply H1; reflexivity.
  - rewrite (H2 [entidad_usuarios]); [reflexivity..|].
    repeat constructor.
Defined.

Lemma manual_como_mapeo_witness :
  usuario_dict fila_usuario = convertir_fila mapeo_usuarios fila_usuario
  /\ post_dict fila_usuario
     = convertir_fila [("id_usuario", "id"); ("nombre", "texto")]
         fila_usuario
  /\ amistad_dict fila_usuario
     = convertir_fila [("id_usuario", "id1"); ("nombre", "id2")]
         fila_usuario
  /\ publicacion_autor_dict fila_usuario
     = convertir_fila [("id_usuario", "autor"); ("nombre", "post")]
         fila_usuario.
Proof.
  apply (manual_como_mapeo "id_usuario" "nombre" "email" fila_usuario).
  apply (bool_decide_unpack _). vm_compute. exact I.
Defined.
